(** * XPS glyph runs: font deobfuscation, encoding selection, the Indices
      mini-language and glyph layout

    A shallow embedding of the functions of the XPS <Glyphs> front end:
    [unhex], [xps_deobfuscate_font_resource], [xps_select_best_font_encoding],
    the [xps_parse_*] tokenizer functions, [xps_parse_glyphs_imp] and the
    font-loading fragment of [xps_parse_glyphs].

    Conventions.
    - A C string is a [string] none of whose characters has code 0; the
      end of the Rocq string is the NUL terminator, and a possibly-NULL
      [char *] is an [option string].
    - A [char] is used through its code [code c : Z] (0..255); none of the
      character tests of this file accepts a code above 127.
    - [int] is a 32-bit two's complement integer kept in [Z]; the one place
      where the source can leave the range ([xps_parse_digits]) wraps.
    - [byte] is an unsigned 8-bit value kept in [Z].
    - [float] is IEEE 754 binary32 and [double] binary64, both carried by
      [spec_float]; every C operation is rounded in the type C gives it
      (FLT_EVAL_METHOD 0, round to nearest even).
    - [fz_warn] appends its message to a log that is threaded through. *)

From Stdlib Require Import ZArith Ascii String Bool Lia Permutation.
From Stdlib Require Import SpecFloat.
From stdpp Require Import base list.

Local Open Scope Z_scope.

(** ** Characters and <ctype.h> in the C locale *)

Definition code (c : ascii) : Z := Z.of_N (N_of_ascii c).

Fixpoint codes (s : string) : list Z :=
  match s with
  | EmptyString => []
  | String c s' => code c :: codes s'
  end.

Definition isdigit (i : Z) : bool := (48 <=? i) && (i <=? 57).

Definition isxdigit (i : Z) : bool :=
  isdigit i || ((97 <=? i) && (i <=? 102)) || ((65 <=? i) && (i <=? 70)).

Definition tolower (i : Z) : Z :=
  if (65 <=? i) && (i <=? 90) then i + 32 else i.

(** [static inline int unhex(int i)] *)
Definition unhex (i : Z) : Z :=
  if isdigit i then i - 48 (* '0' *)
  else tolower i - 97 (* 'a' *) + 10.

(** Storing an [int] into a [byte]. *)
Definition to_byte (v : Z) : Z := v mod 256.

(** ** <string.h> *)

(** [strrchr s c]: the suffix of [s] that starts at the last [c]. *)
Fixpoint strrchr (s : string) (c : ascii) : option string :=
  match s with
  | EmptyString => None
  | String a s' =>
      match strrchr s' c with
      | Some r => Some r
      | None => if Ascii.eqb a c then Some s else None
      end
  end.

Fixpoint starts_with (needle s : string) : bool :=
  match needle, s with
  | EmptyString, _ => true
  | String _ _, EmptyString => false
  | String a n', String b s' => Ascii.eqb a b && starts_with n' s'
  end.

(** [strstr haystack needle]: the suffix of [haystack] that starts at the
    first occurrence of [needle]. *)
Fixpoint strstr (haystack needle : string) : option string :=
  if starts_with needle haystack then Some haystack
  else match haystack with
       | EmptyString => None
       | String _ h' => strstr h' needle
       end.

(** ** Parts, warnings *)

Record xps_part := Build_xps_part {
  name : string;
  data : list Z          (* part->data, part->size is its length *)
}.

Definition warnings := list string.

Definition fz_warn (msg : string) (w : warnings) : warnings := w ++ [msg].

(** ** xps_deobfuscate_font_resource *)

Module Deobfuscate.

(** [for (i = 0; i < 32 && *p; p++) if (isxdigit( *p)) buf[i++] = *p;]
    [buf] holds the [i] characters stored so far. *)
Fixpoint collect_guid (p : string) (buf : list Z) : list Z :=
  match p with
  | EmptyString => buf
  | String c p' =>
      if Z.of_nat (length buf) <? 32
      then collect_guid p' (if isxdigit (code c) then buf ++ [code c] else buf)
      else buf
  end.

(** [key[i] = unhex(buf[i*2+0]) * 16 + unhex(buf[i*2+1])], i = 0..15 *)
Definition make_key (buf : list Z) : list Z :=
  map (fun i : nat => to_byte (unhex (nth (i * 2 + 0) buf 0) * 16
                                + unhex (nth (i * 2 + 1) buf 0)))
      (seq 0 16).

(** A read-modify-write [data[off] ^= k] made by the deobfuscation loop. *)
Definition xor_store := (nat * Z)%type.

(** Every store of the list falls inside a buffer of [size] bytes. *)
Definition stores_in_data (size : nat) (st : list xor_store) : bool :=
  forallb (fun '(off, _) => (off <? size)%nat) st.

(** [for (i = 0; i < 16; i++) { data[i] ^= key[15-i]; data[i+16] ^= key[15-i]; }]
    run from index [i] for [todo] more rounds: the bytes of the part after
    the loop and the stores the loop made, in order.  The loop does not look
    at [part->size].  The list holds the bytes of the part only: a store at
    an offset inside it changes the list, a store beyond its end goes to the
    memory that follows the buffer, which the list does not hold; such a
    store is in the list of stores all the same, and [stores_in_data] tells
    whether there is one. *)
Fixpoint xor_loop (key : list Z) (i todo : nat) (d : list Z)
  : list Z * list xor_store :=
  match todo with
  | O => (d, [])
  | S todo' =>
      let k := nth (15 - i) key 0 in
      let d := alter (fun b => Z.lxor b k) i d in
      let d := alter (fun b => Z.lxor b k) (i + 16)%nat d in
      let '(d', st) := xor_loop key (S i) todo' d in
      (d', (i, k) :: ((i + 16)%nat, k) :: st)
  end.

(** The part and the warnings after the call, and the stores made into
    [part->data]. *)
Definition xps_deobfuscate_font_resource (part : xps_part) (w : warnings)
  : xps_part * warnings * list xor_store :=
  let p := match strrchr (name part) "/" with
           | Some p => p
           | None => name part
           end in
  let buf := collect_guid p [] in
  if negb (length buf =? 32)%nat
  then (part, fz_warn "cannot extract GUID from obfuscated font part name" w, [])
  else
    let key := make_key buf in
    let '(d', st) := xor_loop key 0 16 (data part) in
    (Build_xps_part (name part) d', w, st).

End Deobfuscate.

(** The font-loading fragment of [xps_parse_glyphs]:
    [if (strstr(part->name, ".odttf")) xps_deobfuscate_font_resource(ctx, part);]
    [if (strstr(part->name, ".ODTTF")) xps_deobfuscate_font_resource(ctx, part);]
    The stores of the two calls are given one after the other. *)
Definition deobfuscate_if_necessary (part : xps_part) (w : warnings)
  : xps_part * warnings * list Deobfuscate.xor_store :=
  let '(part, w, st1) :=
    match strstr (name part) ".odttf" with
    | Some _ => Deobfuscate.xps_deobfuscate_font_resource part w
    | None => (part, w, [])
    end in
  let '(part, w, st2) :=
    match strstr (name part) ".ODTTF" with
    | Some _ => Deobfuscate.xps_deobfuscate_font_resource part w
    | None => (part, w, [])
    end in
  (part, w, st1 ++ st2).

(** ** xps_select_best_font_encoding *)

(** The encoding primitives of a font ([xps_count_font_encodings],
    [xps_identify_font_encoding], [xps_select_font_encoding]) are an
    interface of the font backend. *)
Class FontEncodings (font : Type) := {
  xps_count_font_encodings : font -> Z;
  xps_identify_font_encoding : font -> Z -> Z * Z;       (* pid, eid *)
  xps_select_font_encoding : font -> Z -> font
}.

Module Encoding.

Definition xps_cmap_list : list (Z * Z) :=
  [ (3, 10);  (* Unicode with surrogates *)
    (3, 1);   (* Unicode without surrogates *)
    (3, 5);   (* Wansung *)
    (3, 4);   (* Big5 *)
    (3, 3);   (* Prc *)
    (3, 2);   (* ShiftJis *)
    (3, 0);   (* Symbol *)
    (1, 0);
    (-1, -1) ].

Section Select.
Context {font : Type} `{FontEncodings font}.

(** [for (i = ...; i < n; i++)] with [todo] subtables left to look at. *)
Fixpoint scan_encodings (f : font) (entry : Z * Z) (i : Z) (todo : nat)
  : option Z :=
  match todo with
  | O => None
  | S todo' =>
      let '(pid, eid) := xps_identify_font_encoding f i in
      if (pid =? fst entry) && (eid =? snd entry) then Some i
      else scan_encodings f entry (i + 1) todo'
  end.

(** [for (k = 0; xps_cmap_list[k].pid != -1; k++)] over the rest of the list. *)
Fixpoint walk_cmap_list (f : font) (n : Z) (l : list (Z * Z)) : option Z :=
  match l with
  | [] => None
  | entry :: rest =>
      if fst entry =? -1 then None
      else match scan_encodings f entry 0 (Z.to_nat n) with
           | Some i => Some i
           | None => walk_cmap_list f n rest
           end
  end.

Definition xps_select_best_font_encoding (f : font) (w : warnings)
  : font * warnings :=
  let n := xps_count_font_encodings f in
  match walk_cmap_list f n xps_cmap_list with
  | Some i => (xps_select_font_encoding f i, w)
  | None => (f, fz_warn "could not find a suitable cmap" w)
  end.

End Select.
End Encoding.

(** ** Floating point: C [float] and [double] *)

Module FP.

Definition to_double (x : spec_float) : spec_float :=
  match x with
  | S754_finite s m e => binary_round 53 1024 s m e
  | _ => x
  end.

Definition to_float (x : spec_float) : spec_float :=
  match x with
  | S754_finite s m e => binary_round 24 128 s m e
  | _ => x
  end.

Definition fadd := SFadd 24 128.
Definition fsub := SFsub 24 128.
Definition fmul := SFmul 24 128.
Definition dadd := SFadd 53 1024.
Definition dmul := SFmul 53 1024.

Definition float_of_Z (z : Z) : spec_float := binary_normalize 24 128 z 0 false.
Definition double_of_Z (z : Z) : spec_float := binary_normalize 53 1024 z 0 false.

(** The literals of the source. *)
Definition f0_0 : spec_float := S754_zero false.                     (* 0.0 *)
Definition d100_0 : spec_float := double_of_Z 100.                   (* 100.0 *)
Definition f100 : spec_float := float_of_Z 100.                      (* (float)100 *)
Definition d0_01 : spec_float :=                                     (* 0.01 *)
  SFdiv 53 1024 (double_of_Z 1) (double_of_Z 100).
Definition d0_5 : spec_float := binary_normalize 53 1024 1 (-1) false. (* 0.5 *)

(** 0.5 as a [float], for fonts with a half-em advance. *)
Definition f0_5 : spec_float := binary_normalize 24 128 1 (-1) false.

End FP.

(** ** The Indices tokenizer *)

(** [*s]: the character under the pointer, 0 at the terminator. *)
Definition peek (s : string) : Z :=
  match s with
  | EmptyString => 0
  | String c _ => code c
  end.

(** [s + n] *)
Fixpoint skip (n : nat) (s : string) : string :=
  match n, s with
  | O, _ => s
  | S n', String _ s' => skip n' s'
  | S _, EmptyString => EmptyString
  end.

(** [p && *p] for a pointer that may be NULL. *)
Definition nonempty (p : option string) : bool :=
  match p with
  | Some s => negb (peek s =? 0)
  | None => false
  end.

(** 32-bit two's complement wrap-around of an [int] result. *)
Definition wrap_int (z : Z) : Z := (z + 2 ^ 31) mod 2 ^ 32 - 2 ^ 31.

Module Tokenizer.

(** The [while] loop of [xps_parse_digits]. *)
Fixpoint parse_digits_loop (s : string) (digit : Z) : string * Z :=
  match s with
  | EmptyString => (s, digit)
  | String c s' =>
      if (48 <=? code c) && (code c <=? 57)
      then parse_digits_loop s' (wrap_int (digit * 10 + (code c - 48)))
      else (s, digit)
  end.

Definition xps_parse_digits (s : string) : string * Z :=
  parse_digits_loop s 0.

Definition is_real_num_char (c : Z) : bool :=
  ((48 <=? c) && (c <=? 57)) || (c =? 101) (* e *) || (c =? 69) (* E *)
  || (c =? 43) (* + *) || (c =? 45) (* - *) || (c =? 46) (* . *).

(** The scratch buffer [char buf[64]] of [xps_parse_real_num]. *)
Definition buf_size : nat := 64.

(** A store [buf[offset] = value] made through the cursor [p]. *)
Definition store := (nat * Z)%type.

(** [while (is_real_num_char( *s)) *p++ = *s++;] with [p = buf + off]:
    the rest of the input, the final offset of [p] and the stores made. *)
Fixpoint copy_real_num (s : string) (off : nat) : string * nat * list store :=
  match s with
  | EmptyString => (s, off, [])
  | String c s' =>
      if is_real_num_char (code c)
      then let '(r, off', st) := copy_real_num s' (S off) in
           (r, off', (off, code c) :: st)
      else (s, off, [])
  end.

(** The characters a list of stores put into the buffer, in store order. *)
Fixpoint stored_text (st : list store) : string :=
  match st with
  | [] => EmptyString
  | (_, v) :: st' =>
      if v =? 0 then EmptyString
      else String (ascii_of_N (Z.to_N v)) (stored_text st')
  end.

(** No store of the list leaves [buf]. *)
Definition in_bounds (st : list store) : bool :=
  forallb (fun '(off, _) => (off <? buf_size)%nat) st.

Section RealNum.
(** [atof] of the C library, returning a [double]. *)
Variable atof : string -> spec_float.

(** [xps_parse_real_num(s, number)]: the returned pointer, [*number] after
    the call, and the stores made into [buf]. *)
Definition xps_parse_real_num (s : string) (number : spec_float)
  : string * spec_float * list store :=
  let '(s', off, st) := copy_real_num s 0 in
  let st := st ++ [(off, 0)] in                       (* *p = 0; *)
  let buf := stored_text st in
  (s', if negb (peek buf =? 0) then FP.to_float (atof buf) else number, st).

Definition xps_parse_glyph_metrics (s : string) (advance uofs vofs : spec_float)
  : string * spec_float * spec_float * spec_float :=
  let '(s, advance) :=
    if peek s =? 44 (* , *)
    then let '(s', a, _) := xps_parse_real_num (skip 1 s) advance in (s', a)
    else (s, advance) in
  let '(s, uofs) :=
    if peek s =? 44
    then let '(s', u, _) := xps_parse_real_num (skip 1 s) uofs in (s', u)
    else (s, uofs) in
  let '(s, vofs) :=
    if peek s =? 44
    then let '(s', v, _) := xps_parse_real_num (skip 1 s) vofs in (s', v)
    else (s, vofs) in
  (s, advance, uofs, vofs).
End RealNum.

Definition xps_parse_cluster_mapping (s : string) (code_count glyph_count : Z)
  : string * Z * Z :=
  let '(s, code_count) :=
    if peek s =? 40 (* ( *) then xps_parse_digits (skip 1 s)
    else (s, code_count) in
  let '(s, glyph_count) :=
    if peek s =? 58 (* : *) then xps_parse_digits (skip 1 s)
    else (s, glyph_count) in
  let s := if peek s =? 41 (* ) *) then skip 1 s else s in
  (s, code_count, glyph_count).

Definition xps_parse_glyph_index (s : string) (glyph_index : Z) : string * Z :=
  if (48 <=? peek s) && (peek s <=? 57) then xps_parse_digits s
  else (s, glyph_index).

End Tokenizer.

(** ** xps_parse_glyphs_imp *)

Record xps_glyph_metrics := Build_xps_glyph_metrics {
  hadv : spec_float;
  vadv : spec_float;
  vorg : spec_float
}.

(** One [fz_addtext(text, gid, ucs, x, y)]. *)
Record fz_textel := Build_fz_textel {
  gid : Z;
  ucs : Z;
  el_x : spec_float;
  el_y : spec_float
}.

(** Glyph lookup and metrics of the font backend. *)
Class FontGlyphs (font : Type) := {
  xps_encode_font_char : font -> Z -> Z;
  xps_measure_font_glyph : font -> Z -> xps_glyph_metrics
}.

(** [xps_utf8_to_ucs(&c, s, n)] gives the code point stored into [c] and the
    number of bytes it took; [atof] is the C library's. *)
Class TextServices := {
  xps_utf8_to_ucs : string -> Z -> Z * Z;
  atof : string -> spec_float
}.

Module Layout.
Import FP Tokenizer.

Section Imp.
Context {font : Type} `{FontGlyphs font} `{TextServices}.

Variable fnt : font.
Variable size : spec_float.
Variable y : spec_float.                (* [y = originy], never assigned again *)
Variable is_sideways : Z.
Variable bidi_level : Z.

(** [v * 0.01 * size], stored into a [float] *)
Definition scale_by_size (v : spec_float) : spec_float :=
  to_float (dmul (dmul (to_double v) d0_01) (to_double size)).

(** [x += advance * 0.01 * size] *)
Definition advance_pen (x advance : spec_float) : spec_float :=
  to_float (dadd (to_double x)
                 (dmul (dmul (to_double advance) d0_01) (to_double size))).

(** One round of [while (glyph_count--)]; [ip] is the source's pointer [is]
    into the Indices string.  The Indices pointer and the pen
    after it, and the glyph added to the text. *)
Definition glyph_iteration (char_code : Z) (ip : option string) (x : spec_float)
  : option string * spec_float * fz_textel :=
  let glyph_index := -1 in
  let u_offset := f0_0 in
  let v_offset := f0_0 in
  let '(ip, glyph_index) :=
    match ip with
    | Some s =>
        if nonempty ip
        then let '(s', g) := xps_parse_glyph_index s glyph_index in (Some s', g)
        else (ip, glyph_index)
    | None => (ip, glyph_index)
    end in
  let glyph_index :=
    if glyph_index =? -1 then xps_encode_font_char fnt char_code
    else glyph_index in
  let mtx := xps_measure_font_glyph fnt glyph_index in
  let advance :=
    if negb (is_sideways =? 0)
    then to_float (dmul (to_double (vadv mtx)) d100_0)
    else if negb (Z.land bidi_level 1 =? 0)
    then to_float (dmul (to_double (SFopp (hadv mtx))) d100_0)
    else to_float (dmul (to_double (hadv mtx)) d100_0) in
  let '(ip, advance, u_offset, v_offset) :=
    match ip with
    | Some s =>
        if nonempty ip
        then let '(s', a, u, v) :=
               xps_parse_glyph_metrics atof s advance u_offset v_offset in
             (Some (if peek s' =? 59 (* ; *) then skip 1 s' else s'), a, u, v)
        else (ip, advance, u_offset, v_offset)
    | None => (ip, advance, u_offset, v_offset)
    end in
  let u_offset :=
    if negb (Z.land bidi_level 1 =? 0)
    then fsub (fmul (SFopp (hadv mtx)) f100) u_offset
    else u_offset in
  let u_offset := scale_by_size u_offset in
  let v_offset := scale_by_size v_offset in
  let '(e, f) :=
    if negb (is_sideways =? 0)
    then (fadd (fadd x u_offset) (fmul (vorg mtx) size),
          to_float (dadd (to_double (fsub y v_offset))
                         (dmul (dmul (to_double (hadv mtx)) d0_5)
                               (to_double size))))
    else (fadd x u_offset, fsub y v_offset) in
  (ip, advance_pen x advance, Build_fz_textel glyph_index char_code e f).

(** [while (glyph_count--)], [n] rounds; [text] is [ctx->text]. *)
Fixpoint glyph_loop (n : nat) (char_code : Z) (ip : option string)
  (x : spec_float) (text : list fz_textel)
  : option string * spec_float * list fz_textel :=
  match n with
  | O => (ip, x, text)
  | S n' =>
      let '(ip, x, el) := glyph_iteration char_code ip x in
      glyph_loop n' char_code ip x (text ++ [el])
  end.

(** [while (code_count--)], [n] rounds. *)
Fixpoint code_loop (n : nat) (char_code : Z) (us : option string) (un : Z)
  : Z * option string * Z :=
  match n with
  | O => (char_code, us, un)
  | S n' =>
      match us with
      | Some s =>
          if 0 <? un
          then let '(c, t) := xps_utf8_to_ucs s un in
               code_loop n' c (Some (skip (Z.to_nat t) s)) (un - t)
          else code_loop n' char_code us un
      | None => code_loop n' char_code us un
      end
  end.

(** The cluster counts an iteration of the outer loop works with: the
    defaults, the optional cluster mapping, then the two clamps. *)
Definition cluster_counts (ip : option string) : option string * Z * Z :=
  let code_count := 1 in
  let glyph_count := 1 in
  let '(ip, code_count, glyph_count) :=
    match ip with
    | Some s =>
        if nonempty ip
        then let '(s', c, g) := xps_parse_cluster_mapping s code_count glyph_count in
             (Some s', c, g)
        else (ip, code_count, glyph_count)
    | None => (ip, code_count, glyph_count)
    end in
  let code_count := if code_count <? 1 then 1 else code_count in
  let glyph_count := if glyph_count <? 1 then 1 else glyph_count in
  (ip, code_count, glyph_count).

(** The variables the outer loop carries. *)
Record run_state := Build_run_state {
  st_ip : option string;
  st_us : option string;
  st_un : Z;
  st_x : spec_float;
  st_text : list fz_textel
}.

(** The body of [while ((us && un > 0) || (is && *is))]. *)
Definition cluster_iteration (st : run_state) : run_state :=
  let char_code := 63 (* '?' *) in
  let '(ip, code_count, glyph_count) := cluster_counts (st_ip st) in
  let '(char_code, us, un) :=
    code_loop (Z.to_nat code_count) char_code (st_us st) (st_un st) in
  let '(ip, x, text) :=
    glyph_loop (Z.to_nat glyph_count) char_code ip (st_x st) (st_text st) in
  Build_run_state ip us un x text.

Definition loop_condition (st : run_state) : bool :=
  (match st_us st with Some _ => 0 <? st_un st | None => false end)
  || nonempty (st_ip st).

(** The outer loop; [None] when [fuel] iterations did not reach the exit. *)
Fixpoint main_loop (fuel : nat) (st : run_state) : option run_state :=
  if loop_condition st
  then match fuel with
       | O => None
       | S fuel' => main_loop fuel' (cluster_iteration st)
       end
  else Some st.

End Imp.

(** [xps_parse_glyphs_imp]: [ctx->text] after the call ([None] when the
    function returns before [fz_newtext]) and the warnings; the outer
    [option] is [None] when the loop needs more than [fuel] iterations.
    The text matrix [tm] takes no part in the glyph positions and is left
    out. *)
Definition xps_parse_glyphs_imp {font : Type} `{FontGlyphs font} `{TextServices}
  (fnt : font) (size originx originy : spec_float) (is_sideways bidi_level : Z)
  (indices unicode : option string) (w : warnings) (fuel : nat)
  : option (option (list fz_textel) * warnings) :=
  let x := originx in
  let y := originy in
  match unicode, indices with
  | None, None =>
      Some (None, fz_warn "glyphs element with neither characters nor indices" w)
  | _, _ =>
      let '(us, un) :=
        match unicode with
        | Some u =>
            let u := if (peek u =? 123 (* { *)) && (peek (skip 1 u) =? 125 (* } *))
                     then skip 2 u else u in
            (Some u, Z.of_nat (String.length u))
        | None => (None, 0)
        end in
      match main_loop fnt size y is_sideways bidi_level fuel
              (Build_run_state indices us un x []) with
      | Some st => Some (Some (st_text st), w)
      | None => None
      end
  end.

End Layout.

(** ** Notions of the specification *)

Module Spec.
Import Tokenizer FP.

Fixpoint has_char (c : Z) (s : string) : bool :=
  match s with
  | EmptyString => false
  | String a s' => (code a =? c) || has_char c s'
  end.

(** The final path segment of a part name: what follows its last '/',
    the whole name when it has none. *)
Fixpoint final_segment (s : string) : string :=
  match s with
  | EmptyString => EmptyString
  | String a s' =>
      if has_char 47 s' then final_segment s'
      else if code a =? 47 then s' else s
  end.

(** The hexadecimal digit characters of a string, in order. *)
Definition hex_digits (s : string) : list Z := List.filter isxdigit (codes s).

(** The value of a hexadecimal digit character. *)
Definition hex_digit_value (d : Z) : Z :=
  if (48 <=? d) && (d <=? 57) then d - 48          (* 0..9 *)
  else if (97 <=? d) && (d <=? 102) then d - 87    (* a..f *)
  else if (65 <=? d) && (d <=? 70) then d - 55     (* A..F *)
  else 0.

(** Byte [j] of the key a part name carries: hexadecimal digits [2j] and
    [2j+1] of its final path segment, the most significant digit first. *)
Definition guid_key_byte (nm : string) (j : nat) : Z :=
  hex_digit_value (nth (2 * j) (hex_digits (final_segment nm)) 0) * 16
  + hex_digit_value (nth (2 * j + 1) (hex_digits (final_segment nm)) 0).

(** The stores of a deobfuscation with the key of the name [nm]: bytes
    [i] and [i+16] are XORed with key byte [15-i], for i = 0..15. *)
Definition guid_xor_stores (nm : string) : list (nat * Z) :=
  flat_map (fun i : nat => [(i, guid_key_byte nm (15 - i));
                            ((i + 16)%nat, guid_key_byte nm (15 - i))])
           (seq 0 16).

(** [needle] occurs somewhere in [s]. *)
Definition occurs_in (needle s : string) : Prop :=
  exists pre post : string, s = (pre ++ needle ++ post)%string.

(** [s] ends in [ext] when letter case is ignored. *)
Definition ends_with_nocase (ext s : string) : Prop :=
  map tolower (codes ext) `suffix_of` map tolower (codes s).

(** The (platform-id, encoding-id) pairs of the font's subtables, in the
    order the font enumerates them. *)
Definition subtables {font : Type} `{FontEncodings font} (f : font) : list (Z * Z) :=
  map (fun i : nat => xps_identify_font_encoding f (Z.of_nat i))
      (seq 0 (Z.to_nat (xps_count_font_encodings f))).

(** The priority list of the encoding selector. *)
Definition priority : list (Z * Z) :=
  [(3, 10); (3, 1); (3, 5); (3, 4); (3, 3); (3, 2); (3, 0); (1, 0)].

Definition pair_eqb (a b : Z * Z) : bool :=
  (fst a =? fst b) && (snd a =? snd b).

(** The earliest entry of the priority list that is among [subs]. *)
Definition best_pair (subs : list (Z * Z)) : option (Z * Z) :=
  List.find (fun e => existsb (pair_eqb e) subs) priority.

(** The number of real-number characters [s] starts with. *)
Fixpoint real_num_run (s : string) : nat :=
  match s with
  | EmptyString => O
  | String c s' => if is_real_num_char (code c) then S (real_num_run s') else O
  end.

(** The text of the glyph mapping under [ip] that follows its glyph index. *)
Definition after_glyph_index (ip : option string) : option string :=
  match ip with
  | Some s => if nonempty ip then Some (fst (xps_parse_glyph_index s (-1))) else ip
  | None => None
  end.

(** The glyph index the glyph mapping under [ip] supplies, if any. *)
Definition supplied_glyph_index (ip : option string) : option Z :=
  match ip with
  | Some s =>
      if (48 <=? peek s) && (peek s <=? 57)
      then Some (snd (xps_parse_digits s)) else None
  | None => None
  end.

(** The glyph mapping under [ip] supplies an advance: a ',' follows its
    glyph index and at least one real-number character follows the ','. *)
Definition supplies_advance (ip : option string) : bool :=
  match after_glyph_index ip with
  | Some s => (peek s =? 44) && is_real_num_char (peek (skip 1 s))
  | None => false
  end.

(** The advance, uOffset and vOffset of the glyph mapping under [ip]:
    the fields its metrics supply, [dflt] for a missing advance and 0 for
    a missing offset. *)
Definition mapping_metrics `{TextServices} (ip : option string) (dflt : spec_float)
  : spec_float * spec_float * spec_float :=
  match after_glyph_index ip with
  | Some s =>
      if nonempty (Some s)
      then let '(_, a, u, v) := xps_parse_glyph_metrics atof s dflt f0_0 f0_0 in
           (a, u, v)
      else (dflt, f0_0, f0_0)
  | None => (dflt, f0_0, f0_0)
  end.

(** The advance derived from the metrics of a glyph: [vadv] scaled by 100
    for sideways text, else [hadv] scaled by 100, negated when the bidi
    level is odd. *)
Definition derived_advance (mtx : xps_glyph_metrics) (is_sideways bidi_level : Z)
  : spec_float :=
  if negb (is_sideways =? 0) then to_float (dmul (to_double (vadv mtx)) d100_0)
  else if Z.odd bidi_level
  then SFopp (to_float (dmul (to_double (hadv mtx)) d100_0))
  else to_float (dmul (to_double (hadv mtx)) d100_0).

(** The text of a cluster mapping that follows its code-unit count. *)
Definition after_code_count (s : string) : string :=
  if peek s =? 40 then fst (xps_parse_digits (skip 1 s)) else s.

(** The code points the code-unit loop of one cluster decodes, in order:
    at most [n], fewer when the Unicode string runs out. *)
Fixpoint decoded_code_points `{TextServices} (n : nat) (us : option string) (un : Z)
  : list Z :=
  match n, us with
  | S n', Some s =>
      if 0 <? un
      then let '(c, t) := xps_utf8_to_ucs s un in
           c :: decoded_code_points n' (Some (skip (Z.to_nat t) s)) (un - t)
      else []
  | _, _ => []
  end.

End Spec.

(** ** Concrete backends, used to run the functions on examples *)

Module Examples.
Import FP.

(** A font whose encoding subtables are a list of (pid, eid) pairs and
    whose selected subtable is an index into it. *)
Record table_font := Build_table_font {
  tf_subtables : list (Z * Z);
  tf_selected : option Z
}.

#[global] Instance table_font_encodings : FontEncodings table_font := {
  xps_count_font_encodings f := Z.of_nat (length (tf_subtables f));
  xps_identify_font_encoding f i := nth (Z.to_nat i) (tf_subtables f) (0, 0);
  xps_select_font_encoding f i := Build_table_font (tf_subtables f) (Some i)
}.

(** A font that maps character code [c] to glyph [c - 29] and gives every
    glyph the same metrics. *)
Record fixed_font := Build_fixed_font {
  ff_metrics : xps_glyph_metrics
}.

#[global] Instance fixed_font_glyphs : FontGlyphs fixed_font := {
  xps_encode_font_char _ c := c - 29;
  xps_measure_font_glyph f _ := ff_metrics f
}.

Definition half_em_font : fixed_font :=
  Build_fixed_font (Build_xps_glyph_metrics f0_5 f0_0 f0_0).

(** Text services for 7-bit text: every byte is its own code point; [atof]
    knows no number. *)
Definition ascii_text : TextServices := {|
  xps_utf8_to_ucs s _ := (peek s, 1);
  atof _ := S754_nan
|}.

End Examples.

(** ** The font-loading block of [xps_parse_glyphs] *)

(** Part access and font parsing: [xps_absolute_path] gives the part name
    for a base URI and a FontUri, [atoi] is the C library's,
    [xps_read_part] gives the part of a name if there is one, and
    [fz_newfontfrombuffer data size subfontid] gives the font, or nothing
    when it returns an error code. *)
Class PartServices (font : Type) := {
  xps_absolute_path : string -> string -> string;
  atoi : string -> Z;
  xps_read_part : string -> option xps_part;
  fz_newfontfrombuffer : list Z -> nat -> Z -> option font
}.

(** The hash table [ctx->font_table]. *)
Class FontTable (table font : Type) := {
  xps_hash_lookup : table -> string -> option font;
  xps_hash_insert : table -> string -> font -> table
}.

(** The error reports of [fz_catch], a channel of its own beside the
    warnings of [fz_warn]. *)
Definition errors := list string.

Definition fz_catch (msg : string) (e : errors) : errors := e ++ [msg].

Module FontLoader.

(** The first [n] characters of [s]. *)
Fixpoint cut (n : nat) (s : string) : string :=
  match n, s with
  | S n', String c s' => String c (cut n' s')
  | _, _ => EmptyString
  end.

(** [subfont = strrchr(partname, '#'); if (subfont) { subfontid =
    atoi(subfont + 1); *subfont = 0; }]: the part name that is left and the
    subfont id. *)
Definition split_subfont {font : Type} `{PartServices font} (partname : string)
  : string * Z :=
  match strrchr partname "#" with
  | Some subfont =>
      (cut (String.length partname - String.length subfont) partname,
       atoi (skip 1 subfont))
  | None => (partname, 0)
  end.

(** What the block leaves behind: the font ([None] where the function
    returns without one), the font table, the warnings, the error reports
    and the stores made into the part's data. *)
Record loaded (font table : Type) := Build_loaded {
  l_font : option font;
  l_table : table;
  l_warnings : warnings;
  l_errors : errors;
  l_stores : list Deobfuscate.xor_store
}.
Arguments Build_loaded {font table}.
Arguments l_font {font table}.
Arguments l_table {font table}.
Arguments l_warnings {font table}.
Arguments l_errors {font table}.
Arguments l_stores {font table}.

Section Load.
Context {font table : Type}
  `{FontEncodings font} `{PartServices font} `{FontTable table font}.

(** From [xps_absolute_path] to [xps_free(ctx, part)]. *)
Definition find_and_load_font (base_uri font_uri_att : string)
  (font_table : table) (w : warnings) (e : errors) : loaded font table :=
  let partname := xps_absolute_path base_uri font_uri_att in
  let '(partname, subfontid) := split_subfont partname in
  match xps_hash_lookup font_table partname with
  | Some fnt => Build_loaded (Some fnt) font_table w e []
  | None =>
      match xps_read_part partname with
      | None =>
          Build_loaded None font_table
            (fz_warn ("cannot find font resource part '" ++ partname ++ "'") w)
            e []
      | Some part =>
          let '(part, w, st) := deobfuscate_if_necessary part w in
          match fz_newfontfrombuffer (data part) (length (data part)) subfontid with
          | None =>
              Build_loaded None font_table w
                (fz_catch ("cannot load font resource '" ++ partname ++ "'") e)
                st
          | Some fnt =>
              let '(fnt, w) := Encoding.xps_select_best_font_encoding fnt w in
              Build_loaded (Some fnt)
                (xps_hash_insert font_table (name part) fnt) w e st
          end
      end
  end.

End Load.
End FontLoader.

(** ** More notions of the specification *)

Module SpecMore.
Import Tokenizer.

(** The character of a decimal digit 0..9. *)
Definition digit_char (d : Z) : ascii := ascii_of_N (Z.to_N (48 + d)).

(** The string of a list of decimal digits. *)
Fixpoint digits_string (ds : list Z) : string :=
  match ds with
  | [] => EmptyString
  | d :: ds' => String (digit_char d) (digits_string ds')
  end.

(** The number a list of decimal digits writes, most significant first. *)
Definition decimal_value (ds : list Z) : Z :=
  fold_left (fun acc d => acc * 10 + d) ds 0.

(** The run of real-number characters [s] starts with. *)
Fixpoint real_num_text (s : string) : string :=
  match s with
  | EmptyString => EmptyString
  | String c s' =>
      if is_real_num_char (code c) then String c (real_num_text s')
      else EmptyString
  end.

(** [t] is made of real-number characters only. *)
Definition real_num_string (t : string) : bool :=
  forallb is_real_num_char (codes t).

(** The value a metrics field with the text [t] gives to a number that was
    [dflt]: [atof] of the text, as a [float], unless the field is empty. *)
Definition field_value (atof : string -> spec_float) (t : string)
  (dflt : spec_float) : spec_float :=
  match t with
  | EmptyString => dflt
  | _ => FP.to_float (atof t)
  end.

(** A character none of the Indices parsers accepts: not the terminator,
    not '(' ':' ')' ',' ';' and not a digit. *)
Definition stuck_char (c : Z) : bool :=
  negb ((c =? 0) || (c =? 40) || (c =? 58) || (c =? 41) || (c =? 44)
        || (c =? 59) || ((48 <=? c) && (c <=? 57))).

End SpecMore.

(** ** More concrete backends *)

Module Examples2.

(** A font table kept as an association list, newest entry first. *)
Definition list_table := list (string * Examples.table_font).

Fixpoint list_table_lookup (t : list_table) (key : string)
  : option Examples.table_font :=
  match t with
  | [] => None
  | (k, v) :: t' => if String.eqb k key then Some v else list_table_lookup t' key
  end.

#[global] Instance list_font_table : FontTable list_table Examples.table_font := {
  xps_hash_lookup := list_table_lookup;
  xps_hash_insert t k v := (k, v) :: t
}.

(** A package with one font part; every buffer of at least 32 bytes parses
    as a font with the subtables (1,0) and (3,1). *)
Definition one_font_package : PartServices Examples.table_font := {|
  xps_absolute_path base uri := (base ++ uri)%string;
  atoi s := snd (Tokenizer.xps_parse_digits s);
  xps_read_part nm :=
    if String.eqb nm "/Resources/font.ttf"
    then Some (Build_xps_part nm (map Z.of_nat (seq 0 40)))
    else None;
  fz_newfontfrombuffer d _ _ :=
    if (32 <=? length d)%nat
    then Some (Examples.Build_table_font [(1, 0); (3, 1)] None)
    else None
|}.

End Examples2.

(** * Properties *)

(** ** Characters and strings *)

Lemma code_eqb (a b : ascii) : Ascii.eqb a b = (code a =? code b).
Proof.
  destruct (Ascii.eqb_spec a b) as [->|Hne].
  - symmetry. apply Z.eqb_refl.
  - symmetry. apply Z.eqb_neq. intros Hc. apply Hne.
    unfold code in Hc. apply N2Z.inj in Hc.
    rewrite <- (ascii_N_embedding a), <- (ascii_N_embedding b).
    now rewrite Hc.
Qed.

Lemma code_range (a : ascii) : 0 <= code a < 256.
Proof.
  unfold code. pose proof (N_ascii_bounded a). lia.
Qed.

Lemma codes_app (s t : string) : codes (s ++ t) = codes s ++ codes t.
Proof.
  induction s as [|a s IH]; simpl; [reflexivity | now rewrite IH].
Qed.

Lemma codes_length (s : string) : length (codes s) = String.length s.
Proof.
  induction s as [|a s IH]; simpl; [reflexivity | now rewrite IH].
Qed.

(** ** Deobfuscation *)

Module DeobfuscateFacts.
Import Deobfuscate Spec.

Lemma strrchr_none (s : string) :
  strrchr s "/" = None -> has_char 47 s = false.
Proof.
  induction s as [|a s IH]; simpl; [reflexivity|].
  destruct (strrchr s "/") as [r|]; [discriminate|].
  rewrite code_eqb. change (code "/") with 47.
  destruct (code a =? 47); [discriminate|]. intros _. now apply IH.
Qed.

Lemma strrchr_some (s r : string) :
  strrchr s "/" = Some r -> r = String "/" (final_segment s).
Proof.
  revert r. induction s as [|a s IH]; simpl; intros r; [discriminate|].
  destruct (strrchr s "/") as [r'|] eqn:E.
  - intros [= <-]. specialize (IH _ eq_refl).
    assert (Hs : has_char 47 s = true).
    { destruct (has_char 47 s) eqn:Hc; [reflexivity|].
      clear IH. exfalso. revert r' E Hc.
      induction s as [|b s IHs]; simpl; intros r' E Hc; [discriminate|].
      apply orb_false_iff in Hc as [Hb Hc].
      destruct (strrchr s "/") as [q|] eqn:Eq; [now apply (IHs q)|].
      rewrite code_eqb in E. change (code "/") with 47 in E.
      rewrite Hb in E. discriminate. }
    now rewrite Hs.
  - rewrite (strrchr_none _ E).
    rewrite code_eqb. change (code "/") with 47.
    destruct (code a =? 47) eqn:Ha; [|discriminate].
    intros [= <-]. f_equal.
    apply Z.eqb_eq in Ha. unfold code in Ha.
    rewrite <- (ascii_N_embedding a).
    replace (N_of_ascii a) with 47%N by lia. reflexivity.
Qed.

Lemma final_segment_no_slash (s : string) :
  has_char 47 s = false -> final_segment s = s.
Proof.
  destruct s as [|a s]; simpl; [reflexivity|].
  intros Hc. apply orb_false_iff in Hc as [Ha Hs]. now rewrite Hs, Ha.
Qed.

(** The scan collects the first 32 hexadecimal digits. *)
Lemma collect_guid_take (p : string) (buf : list Z) :
  (length buf <= 32)%nat ->
  collect_guid p buf = take 32 (buf ++ hex_digits p).
Proof.
  revert buf. induction p as [|c p IH]; intros buf Hlen; simpl.
  - unfold hex_digits. simpl. rewrite app_nil_r.
    symmetry. apply take_ge. lia.
  - destruct (Z.ltb_spec (Z.of_nat (length buf)) 32) as [Hlt|Hge].
    + unfold hex_digits in *. simpl.
      destruct (isxdigit (code c)).
      * rewrite IH by (rewrite length_app; simpl; lia).
        now rewrite <- app_assoc.
      * now apply IH.
    + assert (length buf = 32%nat) as Hb by lia.
      rewrite take_app_le by lia. symmetry. apply take_ge. lia.
Qed.

(** The characters the key is made of are the hexadecimal digits of the
    final path segment. *)
Lemma scanned_guid (nm : string) :
  collect_guid (match strrchr nm "/" with Some p => p | None => nm end) [] =
  take 32 (hex_digits (final_segment nm)).
Proof.
  rewrite collect_guid_take by (simpl; lia). simpl. f_equal.
  destruct (strrchr nm "/") as [r|] eqn:E.
  - now rewrite (strrchr_some _ _ E).
  - now rewrite (final_segment_no_slash _ (strrchr_none _ E)).
Qed.

Lemma unhex_value (d : Z) :
  isxdigit d = true -> unhex d = hex_digit_value d /\ 0 <= unhex d < 16.
Proof.
  unfold isxdigit, isdigit, unhex, hex_digit_value, isdigit, tolower.
  intros Hd.
  destruct (Z.leb_spec 48 d), (Z.leb_spec d 57), (Z.leb_spec 97 d),
    (Z.leb_spec d 102), (Z.leb_spec 65 d), (Z.leb_spec d 70),
    (Z.leb_spec d 90); simpl in *; try discriminate; lia.
Qed.

Lemma hex_digits_all (s : string) (j : nat) :
  (j < length (hex_digits s))%nat -> isxdigit (nth j (hex_digits s) 0) = true.
Proof.
  intros Hj. unfold hex_digits.
  pose proof (nth_In _ 0 Hj) as Hin. unfold hex_digits in Hin.
  apply filter_In in Hin. tauto.
Qed.

Lemma xor_loop_S (key : list Z) (todo i : nat) (d : list Z) :
  xor_loop key i (S todo) d =
  let k := nth (15 - i) key 0 in
  let r := xor_loop key (S i) todo
             (alter (fun b => Z.lxor b k) (i + 16)%nat
                (alter (fun b => Z.lxor b k) i d)) in
  (r.1, (i, k) :: ((i + 16)%nat, k) :: r.2).
Proof. simpl. now destruct (xor_loop key (S i) todo _). Qed.

Lemma xor_loop_length (key : list Z) (todo i : nat) (d : list Z) :
  length (xor_loop key i todo d).1 = length d.
Proof.
  revert i d. induction todo as [|todo IH]; intros i d; [reflexivity|].
  rewrite xor_loop_S. cbv zeta. cbn [fst].
  now rewrite IH, !length_alter.
Qed.

Lemma xor_loop_lookup (key : list Z) (todo i : nat) (d : list Z) (j : nat) :
  (todo <= 16)%nat ->
  (xor_loop key i todo d).1 !! j =
    if decide (i <= j < i + todo)%nat
    then (fun b => Z.lxor b (nth (15 - j) key 0)) <$> d !! j
    else if decide (i + 16 <= j < i + 16 + todo)%nat
    then (fun b => Z.lxor b (nth (15 - (j - 16)) key 0)) <$> d !! j
    else d !! j.
Proof.
  revert i d. induction todo as [|todo IH]; intros i d Hle.
  - cbn [xor_loop fst]. repeat case_decide; try lia. reflexivity.
  - rewrite xor_loop_S. cbv zeta. cbn [fst]. rewrite IH by lia.
    destruct (decide (j = i)) as [->|Hji].
    + repeat case_decide; try lia.
      rewrite list_lookup_alter_ne by lia. now rewrite list_lookup_alter_eq.
    + destruct (decide (j = i + 16)%nat) as [->|Hj16].
      * repeat case_decide; try lia.
        rewrite list_lookup_alter_eq.
        rewrite list_lookup_alter_ne by lia.
        replace (i + 16 - 16)%nat with i by lia. reflexivity.
      * rewrite !list_lookup_alter_ne by lia.
        repeat case_decide; try lia; reflexivity.
Qed.

(** The stores of the loop do not depend on the data or its length. *)
Lemma xor_loop_stores (key : list Z) (todo i : nat) (d : list Z) :
  (xor_loop key i todo d).2 =
  flat_map (fun j : nat => [(j, nth (15 - j) key 0);
                            ((j + 16)%nat, nth (15 - j) key 0)])
           (seq i todo).
Proof.
  revert i d. induction todo as [|todo IH]; intros i d; [reflexivity|].
  rewrite xor_loop_S. cbv zeta. cbn [snd seq flat_map app].
  now rewrite IH.
Qed.

Lemma make_key_nth (buf : list Z) (j : nat) :
  (j < 16)%nat ->
  nth j (make_key buf) 0 =
  to_byte (unhex (nth (j * 2 + 0) buf 0) * 16 + unhex (nth (j * 2 + 1) buf 0)).
Proof.
  intros Hj. unfold make_key.
  do 16 (destruct j as [|j]; [reflexivity|]). lia.
Qed.

End DeobfuscateFacts.

Module DeobfuscateProps.
Import Deobfuscate Spec DeobfuscateFacts.

Lemma key_byte_of_scan (nm : string) (j : nat) :
  (32 <= length (hex_digits (final_segment nm)))%nat -> (j < 16)%nat ->
  nth j (make_key (take 32 (hex_digits (final_segment nm)))) 0 =
  guid_key_byte nm j.
Proof.
  intros Hlen Hj. rewrite make_key_nth by exact Hj. unfold guid_key_byte.
  set (ds := hex_digits (final_segment nm)) in *.
  assert (Hnth : forall k, (k < 32)%nat -> nth k (take 32 ds) 0 = nth k ds 0).
  { intros k Hk. rewrite nth_firstn.
    destruct (Nat.ltb_spec k 32); [reflexivity | lia]. }
  rewrite !Hnth by lia.
  replace (j * 2 + 0)%nat with (2 * j)%nat by lia.
  replace (j * 2 + 1)%nat with (2 * j + 1)%nat by lia.
  destruct (unhex_value (nth (2 * j) ds 0)) as [E1 R1];
    [apply hex_digits_all; fold ds; lia|].
  destruct (unhex_value (nth (2 * j + 1) ds 0)) as [E2 R2];
    [apply hex_digits_all; fold ds; lia|].
  unfold to_byte. rewrite Z.mod_small by lia. now rewrite E1, E2.
Qed.

(** C2. When the final path segment of the part name holds at least 32
    hexadecimal digits, deobfuscation, for a part of any size, gives no
    warning and keeps the name and the length of the data; its stores are
    the XOR of byte [i] and of byte [i+16] (i = 0..15, in this order) with
    key byte [15-i], key byte [j] being 16 * (value of digit 2j) + (value
    of digit 2j+1); every byte of the data at such an offset is replaced by
    its XOR with that key byte, and every byte at offset 32 or beyond is
    kept. *)
Theorem deobfuscate_xors_first_32_bytes (part : xps_part) (w : warnings) :
  (32 <= length (hex_digits (final_segment (name part))))%nat ->
  exists d' : list Z,
    xps_deobfuscate_font_resource part w =
      (Build_xps_part (name part) d', w, guid_xor_stores (name part))
    /\ length d' = length (data part)
    /\ (forall (i : nat) (b : Z), (i < 16)%nat ->
          data part !! i = Some b ->
          d' !! i = Some (Z.lxor b (guid_key_byte (name part) (15 - i))))
    /\ (forall (i : nat) (b : Z), (i < 16)%nat ->
          data part !! (i + 16)%nat = Some b ->
          d' !! (i + 16)%nat = Some (Z.lxor b (guid_key_byte (name part) (15 - i))))
    /\ (forall i : nat, (32 <= i)%nat -> d' !! i = data part !! i).
Proof.
  intros Hdigits.
  unfold xps_deobfuscate_font_resource. rewrite scanned_guid.
  rewrite length_take, Nat.min_l by exact Hdigits. simpl negb. cbv iota.
  set (key := make_key (take 32 (hex_digits (final_segment (name part))))).
  pose proof (xor_loop_stores key 16 0 (data part)) as Hst.
  pose proof (xor_loop_length key 16 0 (data part)) as Hlen.
  pose proof (fun j => xor_loop_lookup key 16 0 (data part) j (Nat.le_refl 16))
    as Hlook.
  destruct (xor_loop key 0 16 (data part)) as [d' st]. cbn [fst snd] in *.
  exists d'. split.
  { f_equal. rewrite Hst. subst key. unfold guid_xor_stores.
    cbn [seq flat_map app]. rewrite !key_byte_of_scan by lia. reflexivity. }
  split; [exact Hlen|].
  split; [|split].
  - intros i b Hi Hb. rewrite Hlook.
    rewrite decide_True by lia. subst key.
    rewrite key_byte_of_scan by lia. now rewrite Hb.
  - intros i b Hi Hb. rewrite Hlook.
    rewrite decide_False by lia. rewrite decide_True by lia.
    replace (15 - (i + 16 - 16))%nat with (15 - i)%nat by lia. subst key.
    rewrite key_byte_of_scan by lia. now rewrite Hb.
  - intros i Hi. rewrite Hlook.
    rewrite !decide_False by lia. reflexivity.
Qed.

Lemma deobfuscate_xors_first_32_bytes_witness :
  let part := Build_xps_part
                "/Resources/0123456789abcdef-0123456789ABCDEF.odttf"
                (map Z.of_nat (seq 0 40)) in
  (32 <= length (hex_digits (final_segment (name part))))%nat
  /\ exists d' : list Z,
    xps_deobfuscate_font_resource part [] =
      (Build_xps_part (name part) d', [], guid_xor_stores (name part))
    /\ length d' = length (data part)
    /\ (forall (i : nat) (b : Z), (i < 16)%nat ->
          data part !! i = Some b ->
          d' !! i = Some (Z.lxor b (guid_key_byte (name part) (15 - i))))
    /\ (forall (i : nat) (b : Z), (i < 16)%nat ->
          data part !! (i + 16)%nat = Some b ->
          d' !! (i + 16)%nat = Some (Z.lxor b (guid_key_byte (name part) (15 - i))))
    /\ (forall i : nat, (32 <= i)%nat -> d' !! i = data part !! i).
Proof.
  intros part.
  assert (H1 : (32 <= length (hex_digits (final_segment (name part))))%nat)
    by (vm_compute; lia).
  split; [exact H1|].
  exact (deobfuscate_xors_first_32_bytes part [] H1).
Defined.

(** C8. When the final path segment of the part name holds fewer than 32
    hexadecimal digits, deobfuscation only warns that the GUID cannot be
    extracted: the part, and so every byte of its data, is returned as it
    was, and no store is made. *)
Theorem deobfuscate_malformed_guid (part : xps_part) (w : warnings) :
  (length (hex_digits (final_segment (name part))) < 32)%nat ->
  xps_deobfuscate_font_resource part w =
  (part, w ++ ["cannot extract GUID from obfuscated font part name"%string], []).
Proof.
  intros Hdigits.
  unfold xps_deobfuscate_font_resource. rewrite scanned_guid.
  rewrite length_take, Nat.min_r by lia.
  destruct (Nat.eqb_spec (length (hex_digits (final_segment (name part)))) 32)
    as [E|_]; [lia|].
  reflexivity.
Qed.

Lemma deobfuscate_malformed_guid_witness :
  let part := Build_xps_part "/Resources/Fonts/0123-cafe.odttf" [7; 8; 9] in
  (length (hex_digits (final_segment (name part))) < 32)%nat
  /\ xps_deobfuscate_font_resource part [] =
     (part, ["cannot extract GUID from obfuscated font part name"%string], []).
Proof.
  intros part.
  assert (H1 : (length (hex_digits (final_segment (name part))) < 32)%nat)
    by (vm_compute; lia).
  split; [exact H1|].
  exact (deobfuscate_malformed_guid part [] H1).
Defined.

End DeobfuscateProps.

(** ** The loader's test for obfuscated fonts *)

Module LoaderProps.
Import Deobfuscate Spec.

Lemma starts_with_prefix (n s : string) :
  starts_with n s = true <-> exists post : string, s = (n ++ post)%string.
Proof.
  revert s. induction n as [|a n IH]; intros s; simpl.
  - split; [intros _; now exists s | reflexivity].
  - destruct s as [|b s].
    + split; [discriminate | intros [post Hp]; discriminate].
    + rewrite andb_true_iff, IH. split.
      * intros [Hab [post ->]]. apply Ascii.eqb_eq in Hab as ->. now exists post.
      * intros [post [= -> ->]]. split; [apply Ascii.eqb_refl | now exists post].
Qed.

Lemma strstr_unfold (h n : string) :
  strstr h n = if starts_with n h then Some h
               else match h with
                    | EmptyString => None
                    | String _ h' => strstr h' n
                    end.
Proof. destruct h; reflexivity. Qed.

Lemma strstr_occurs (h n : string) :
  (exists r, strstr h n = Some r) <-> occurs_in n h.
Proof.
  split.
  - induction h as [|a h IH]; simpl; intros [r Hr].
    + destruct (starts_with n "") eqn:E; [|discriminate].
      apply starts_with_prefix in E as [post Hp]. now exists ""%string, post.
    + destruct (starts_with n (String a h)) eqn:E.
      * apply starts_with_prefix in E as [post Hp]. now exists ""%string, post.
      * destruct IH as [pre [post ->]]; [now exists r|].
        now exists (String a pre), post.
  - intros [pre [post ->]]. induction pre as [|a pre IH].
    + assert (E : starts_with n (n ++ post) = true)
        by (apply starts_with_prefix; now exists post).
      rewrite strstr_unfold. simpl append. rewrite E. eauto.
    + destruct IH as [r Hr]. rewrite strstr_unfold. simpl append.
      destruct (starts_with n (String a (pre ++ n ++ post))); eauto.
Qed.

Lemma strstr_none (h n : string) :
  ~ occurs_in n h -> strstr h n = None.
Proof.
  intros Hno. destruct (strstr h n) as [r|] eqn:E; [|reflexivity].
  exfalso. apply Hno, strstr_occurs. now exists r.
Qed.

Lemma strstr_some (h n : string) :
  occurs_in n h -> exists r, strstr h n = Some r.
Proof. apply strstr_occurs. Qed.

Lemma deobfuscate_keeps_name (part : xps_part) (w : warnings) :
  name (xps_deobfuscate_font_resource part w).1.1 = name part.
Proof.
  unfold xps_deobfuscate_font_resource.
  destruct (negb _); [reflexivity|].
  now destruct (xor_loop _ 0 16 (data part)).
Qed.

Lemma occurs_in_dec (n s : string) : occurs_in n s \/ ~ occurs_in n s.
Proof.
  destruct (strstr s n) as [r|] eqn:E.
  - left. apply strstr_occurs. now exists r.
  - right. intros Ho. apply strstr_some in Ho as [r Hr]. congruence.
Qed.

(** The loader when the name contains neither spelling. *)
Lemma loader_neither (part : xps_part) (w : warnings) :
  ~ occurs_in ".odttf" (name part) -> ~ occurs_in ".ODTTF" (name part) ->
  deobfuscate_if_necessary part w = (part, w, []).
Proof.
  intros Hl Hu. unfold deobfuscate_if_necessary.
  now rewrite (strstr_none _ _ Hl), (strstr_none _ _ Hu).
Qed.

(** The loader when the name contains the lower-case spelling only. *)
Lemma loader_lower_only (part : xps_part) (w : warnings) :
  occurs_in ".odttf" (name part) -> ~ occurs_in ".ODTTF" (name part) ->
  deobfuscate_if_necessary part w = xps_deobfuscate_font_resource part w.
Proof.
  intros Hl Hu. unfold deobfuscate_if_necessary.
  destruct (strstr_some _ _ Hl) as [r ->].
  pose proof (deobfuscate_keeps_name part w) as Hn.
  destruct (xps_deobfuscate_font_resource part w) as [[p1 w1] st1].
  cbn [fst] in Hn. rewrite Hn, (strstr_none _ _ Hu).
  now rewrite app_nil_r.
Qed.

(** The loader when the name contains the upper-case spelling only. *)
Lemma loader_upper_only (part : xps_part) (w : warnings) :
  ~ occurs_in ".odttf" (name part) -> occurs_in ".ODTTF" (name part) ->
  deobfuscate_if_necessary part w = xps_deobfuscate_font_resource part w.
Proof.
  intros Hl Hu. unfold deobfuscate_if_necessary.
  rewrite (strstr_none _ _ Hl).
  destruct (strstr_some _ _ Hu) as [r ->].
  now destruct (xps_deobfuscate_font_resource part w) as [[p1 w1] st1].
Qed.

(** C4, as the code has it.  The loader looks for the two spellings
    ".odttf" and ".ODTTF" anywhere in the part name.  A name that contains
    neither is left alone: no deobfuscation, no warning, no store.  A name
    that contains exactly one of the two is deobfuscated, once; so is, in
    particular, a name that ends in one spelling and does not contain the
    other. *)
Theorem loader_deobfuscates_per_spelling (part : xps_part) (w : warnings) :
  (~ occurs_in ".odttf" (name part) -> ~ occurs_in ".ODTTF" (name part) ->
     deobfuscate_if_necessary part w = (part, w, []))
  /\ (occurs_in ".odttf" (name part) -> ~ occurs_in ".ODTTF" (name part) ->
        deobfuscate_if_necessary part w = xps_deobfuscate_font_resource part w)
  /\ (~ occurs_in ".odttf" (name part) -> occurs_in ".ODTTF" (name part) ->
        deobfuscate_if_necessary part w = xps_deobfuscate_font_resource part w)
  /\ ((exists pre : string, name part = (pre ++ ".odttf")%string) ->
      ~ occurs_in ".ODTTF" (name part) ->
        deobfuscate_if_necessary part w = xps_deobfuscate_font_resource part w)
  /\ ((exists pre : string, name part = (pre ++ ".ODTTF")%string) ->
      ~ occurs_in ".odttf" (name part) ->
        deobfuscate_if_necessary part w = xps_deobfuscate_font_resource part w).
Proof.
  split; [apply loader_neither|].
  split; [apply loader_lower_only|].
  split; [apply loader_upper_only|].
  split.
  - intros [pre Hpre] Hu. apply loader_lower_only; [|exact Hu].
    exists pre, ""%string. now rewrite Hpre.
  - intros [pre Hpre] Hl. apply loader_upper_only; [exact Hl|].
    exists pre, ""%string. now rewrite Hpre.
Qed.

Lemma loader_deobfuscates_per_spelling_witness :
  let part := Build_xps_part
                "/Resources/0123456789abcdef-0123456789ABCDEF.odttf"
                (map Z.of_nat (seq 0 40)) in
  (exists pre : string, name part = (pre ++ ".odttf")%string)
  /\ ~ occurs_in ".ODTTF" (name part)
  /\ deobfuscate_if_necessary part [] = xps_deobfuscate_font_resource part [].
Proof.
  intros part.
  assert (H1 : exists pre : string, name part = (pre ++ ".odttf")%string).
  { now exists "/Resources/0123456789abcdef-0123456789ABCDEF"%string. }
  assert (H2 : ~ occurs_in ".ODTTF" (name part)).
  { intros Ho. apply strstr_some in Ho as [r Hr]. vm_compute in Hr. discriminate. }
  split; [exact H1|]. split; [exact H2|].
  exact (proj1 (proj2 (proj2 (proj2 (loader_deobfuscates_per_spelling part []))))
           H1 H2).
Defined.

(** C4 as stated fails in both directions.  A name that ends in ".OdTtF"
    is a suffix match when case is ignored, yet the loader leaves the part
    alone although deobfuscation would change it; a name that merely
    contains ".odttf" does not end in the extension, yet the loader
    deobfuscates it. *)
Lemma loader_is_not_caseless_suffix_match :
  let mixed := Build_xps_part
                 "/Resources/0123456789abcdef-0123456789ABCDEF.OdTtF"
                 (map Z.of_nat (seq 0 40)) in
  let inner := Build_xps_part
                 "/Resources/0123456789abcdef-0123456789ABCDEF.odttf.bak"
                 (map Z.of_nat (seq 0 40)) in
  (ends_with_nocase ".odttf" (name mixed)
   /\ deobfuscate_if_necessary mixed [] = (mixed, [], [])
   /\ (xps_deobfuscate_font_resource mixed []).1.1 <> mixed)
  /\ (~ ends_with_nocase ".odttf" (name inner)
      /\ deobfuscate_if_necessary inner [] = xps_deobfuscate_font_resource inner []
      /\ (xps_deobfuscate_font_resource inner []).1.1 <> inner).
Proof.
  intros mixed inner. split; split.
  - exists (map tolower (codes "/Resources/0123456789abcdef-0123456789ABCDEF")).
    vm_compute. reflexivity.
  - split; [vm_compute; reflexivity | vm_compute; discriminate].
  - intros [k Hk]. apply (f_equal (fun l => last l)) in Hk.
    rewrite last_app in Hk. vm_compute in Hk. discriminate.
  - split; [vm_compute; reflexivity | vm_compute; discriminate].
Qed.

End LoaderProps.

(** ** The encoding selector *)

Module EncodingProps.
Import Encoding Spec.

Section Selector.
Context {font : Type} `{FontEncodings font}.

Lemma pair_eqb_eq (a b : Z * Z) : pair_eqb a b = true <-> a = b.
Proof.
  destruct a as [a1 a2], b as [b1 b2]. unfold pair_eqb. simpl.
  rewrite andb_true_iff, !Z.eqb_eq. split; [intros [-> ->] | intros [= -> ->]]; auto.
Qed.

(** What the inner loop returns is the first subtable, from [i0] on, whose
    pair is [entry]. *)
Lemma scan_encodings_some (f : font) (entry : Z * Z) (todo : nat) (i0 i : Z) :
  scan_encodings f entry i0 todo = Some i ->
  i0 <= i < i0 + Z.of_nat todo
  /\ xps_identify_font_encoding f i = entry
  /\ forall j, i0 <= j < i -> xps_identify_font_encoding f j <> entry.
Proof.
  revert i0. induction todo as [|todo IH]; intros i0; simpl; [discriminate|].
  destruct (xps_identify_font_encoding f i0) as [pid eid] eqn:E.
  destruct ((pid =? fst entry) && (eid =? snd entry)) eqn:T.
  - intros [= <-]. split; [lia|].
    apply (pair_eqb_eq (pid, eid) entry) in T. split; [congruence|].
    intros j Hj. lia.
  - intros Hs. destruct (IH _ Hs) as (Hr & Hi & Hfirst).
    split; [lia|]. split; [exact Hi|].
    intros j Hj. destruct (Z.eq_dec j i0) as [->|Hne].
    + rewrite E. intros Heq.
      apply (pair_eqb_eq (pid, eid) entry) in Heq. unfold pair_eqb in Heq.
      simpl in Heq. congruence.
    + apply Hfirst. lia.
Qed.

Lemma scan_encodings_none (f : font) (entry : Z * Z) (todo : nat) (i0 : Z) :
  scan_encodings f entry i0 todo = None ->
  forall j, i0 <= j < i0 + Z.of_nat todo -> xps_identify_font_encoding f j <> entry.
Proof.
  revert i0. induction todo as [|todo IH]; intros i0; simpl; [lia|].
  destruct (xps_identify_font_encoding f i0) as [pid eid] eqn:E.
  destruct ((pid =? fst entry) && (eid =? snd entry)) eqn:T; [discriminate|].
  intros Hs j Hj. destruct (Z.eq_dec j i0) as [->|Hne].
  - rewrite E. intros Heq.
    apply (pair_eqb_eq (pid, eid) entry) in Heq. unfold pair_eqb in Heq.
    simpl in Heq. congruence.
  - apply (IH _ Hs). lia.
Qed.

Lemma in_subtables (f : font) (e : Z * Z) :
  In e (subtables f) <->
  exists j, 0 <= j < xps_count_font_encodings f /\ xps_identify_font_encoding f j = e.
Proof.
  unfold subtables. rewrite in_map_iff. split.
  - intros (k & Hk & Hin). apply in_seq in Hin. exists (Z.of_nat k). split; [lia | exact Hk].
  - intros (j & Hj & He). exists (Z.to_nat j). rewrite Z2Nat.id by lia.
    split; [exact He|]. apply in_seq. lia.
Qed.

Lemma present_in_subtables (f : font) (e : Z * Z) :
  existsb (pair_eqb e) (subtables f) = true <-> In e (subtables f).
Proof.
  rewrite existsb_exists. split.
  - intros (x & Hin & Heq). apply pair_eqb_eq in Heq. now subst.
  - intros Hin. exists e. split; [exact Hin | now apply pair_eqb_eq].
Qed.

(** The scan of one list entry against the font. *)
Lemma scan_all (f : font) (e : Z * Z) :
  match scan_encodings f e 0 (Z.to_nat (xps_count_font_encodings f)) with
  | Some i => existsb (pair_eqb e) (subtables f) = true
              /\ 0 <= i < xps_count_font_encodings f
              /\ xps_identify_font_encoding f i = e
              /\ forall j, 0 <= j < i -> xps_identify_font_encoding f j <> e
  | None => existsb (pair_eqb e) (subtables f) = false
  end.
Proof.
  destruct (scan_encodings _ _ _ _) as [i|] eqn:E.
  - apply scan_encodings_some in E as (Hr & Hi & Hfirst).
    assert (0 <= i < xps_count_font_encodings f) by lia.
    split; [|auto]. apply present_in_subtables, in_subtables. eauto.
  - pose proof (scan_encodings_none _ _ _ _ E) as Hn.
    apply not_true_is_false. intros Hp.
    apply present_in_subtables, in_subtables in Hp as (j & Hj & He).
    apply (Hn j); [lia | exact He].
Qed.

(** The walk over a list that carries no sentinel, followed by the
    sentinel, finds the first entry that the font has. *)
Lemma walk_finds_first (f : font) (l : list (Z * Z)) :
  Forall (fun e => fst e <> -1) l ->
  match List.find (fun e => existsb (pair_eqb e) (subtables f)) l with
  | Some e => exists i,
      walk_cmap_list f (xps_count_font_encodings f) (l ++ [(-1, -1)]) = Some i
      /\ 0 <= i < xps_count_font_encodings f
      /\ xps_identify_font_encoding f i = e
      /\ forall j, 0 <= j < i -> xps_identify_font_encoding f j <> e
  | None => walk_cmap_list f (xps_count_font_encodings f) (l ++ [(-1, -1)]) = None
  end.
Proof.
  induction 1 as [|e l He Hl IH]; simpl; [reflexivity|].
  destruct (Z.eqb_spec (fst e) (-1)) as [Hs|_]; [contradiction|].
  pose proof (scan_all f e) as Hscan.
  destruct (scan_encodings f e 0 _) as [i|].
  - destruct Hscan as (-> & Hscan). eauto.
  - rewrite Hscan. exact IH.
Qed.

End Selector.

Lemma existsb_permutation {A : Type} (p : A -> bool) (l l' : list A) :
  Permutation l l' -> existsb p l = existsb p l'.
Proof.
  induction 1 as [|x l l' _ IH|x y l|l l' l'' _ IH1 _ IH2]; simpl.
  - reflexivity.
  - now rewrite IH.
  - destruct (p x), (p y); reflexivity.
  - now rewrite IH1.
Qed.

Lemma best_pair_permutation (subs subs' : list (Z * Z)) :
  Permutation subs subs' -> best_pair subs = best_pair subs'.
Proof.
  intros Hp. unfold best_pair.
  assert (Hext : forall e, existsb (pair_eqb e) subs = existsb (pair_eqb e) subs')
    by (intros e; now apply existsb_permutation).
  induction priority as [|e l IH]; simpl; [reflexivity|].
  rewrite Hext. now rewrite IH.
Qed.

(** [best_pair] is the earliest entry of the priority list that the font has. *)
Lemma best_pair_earliest (subs : list (Z * Z)) (e : Z * Z) :
  best_pair subs = Some e <->
  exists k : nat, priority !! k = Some e /\ In e subs
    /\ forall (k' : nat) (e' : Z * Z),
         (k' < k)%nat -> priority !! k' = Some e' -> ~ In e' subs.
Proof.
  unfold best_pair.
  assert (Hp : forall x, existsb (pair_eqb x) subs = true <-> In x subs).
  { intros x. rewrite existsb_exists. split.
    - intros (z & Hin & Heq). apply pair_eqb_eq in Heq. now subst.
    - intros Hin. exists x. split; [exact Hin | now apply pair_eqb_eq]. }
  induction priority as [|p l IH]; simpl.
  - split; [discriminate | intros (k & Hk & _); now destruct k].
  - destruct (existsb (pair_eqb p) subs) eqn:Ep.
    + split.
      * intros [= <-]. exists 0%nat. split; [reflexivity|].
        split; [now apply Hp | intros; lia].
      * intros (k & Hk & Hin & Hfirst). destruct k as [|k]; [exact Hk|].
        exfalso. apply (Hfirst 0%nat p); [lia | reflexivity | now apply Hp].
    + rewrite IH. split.
      * intros (k & Hk & Hin & Hfirst). exists (S k). split; [exact Hk|].
        split; [exact Hin|]. intros [|k'] e' Hlt Hl; simpl in Hl.
        -- injection Hl as <-. intros Hin'. apply Hp in Hin'. congruence.
        -- apply (Hfirst k'); [lia | exact Hl].
      * intros (k & Hk & Hin & Hfirst). destruct k as [|k]; simpl in Hk.
        -- injection Hk as ->. apply Hp in Hin. congruence.
        -- exists k. split; [exact Hk|]. split; [exact Hin|].
           intros k' e' Hlt Hl. apply (Hfirst (S k')); [lia | exact Hl].
Qed.

(** C5. The selector selects the first subtable (in the font's order) that
    carries the earliest pair of the priority list (3,10), (3,1), (3,5),
    (3,4), (3,3), (3,2), (3,0), (1,0) the font has at all; which pair that
    is does not depend on the order of the font's subtables, and for the
    subtables (1,0) and (3,1), in either order, it is (3,1); when the font
    has none of the listed pairs the font is returned unchanged and the
    only effect is the warning. *)
Theorem selector_follows_priority_list
  {font : Type} `{FontEncodings font} (f : font) (w : warnings) :
  match best_pair (subtables f) with
  | Some e => exists i,
      xps_select_best_font_encoding f w = (xps_select_font_encoding f i, w)
      /\ 0 <= i < xps_count_font_encodings f
      /\ xps_identify_font_encoding f i = e
      /\ (forall j, 0 <= j < i -> xps_identify_font_encoding f j <> e)
      /\ exists k : nat, priority !! k = Some e
           /\ forall (k' : nat) (e' : Z * Z),
                (k' < k)%nat -> priority !! k' = Some e' -> ~ In e' (subtables f)
  | None =>
      xps_select_best_font_encoding f w =
        (f, w ++ ["could not find a suitable cmap"%string])
      /\ forall e, In e priority -> ~ In e (subtables f)
  end
  /\ (forall g : font, Permutation (subtables f) (subtables g) ->
        best_pair (subtables f) = best_pair (subtables g))
  /\ (Permutation (subtables f) [(1, 0); (3, 1)] ->
        best_pair (subtables f) = Some (3, 1)).
Proof.
  split; [|split].
  - pose proof (walk_finds_first f priority) as Hw.
    unfold xps_select_best_font_encoding. change xps_cmap_list with (priority ++ [(-1, -1)]).
    fold (best_pair (subtables f)) in Hw.
    destruct (best_pair (subtables f)) as [e|] eqn:Eb.
    + destruct Hw as (i & -> & Hr & Hi & Hfirst).
      { unfold priority. repeat constructor; simpl; lia. }
      exists i. repeat (split; [assumption || reflexivity|]).
      apply best_pair_earliest in Eb as (k & Hk & _ & Hk'). eauto.
    + rewrite Hw by (unfold priority; repeat constructor; simpl; lia).
      split; [reflexivity|].
      intros e He Hin. unfold best_pair in Eb.
      apply (find_none _ _ Eb) in He.
      apply present_in_subtables in Hin. congruence.
  - intros g Hp. now apply best_pair_permutation.
  - intros Hp. now rewrite (best_pair_permutation _ _ Hp).
Qed.

Lemma selector_follows_priority_list_witness :
  let f := Examples.Build_table_font [(1, 0); (3, 1)] None in
  Permutation (subtables f) [(1, 0); (3, 1)]
  /\ best_pair (subtables f) = Some (3, 1)
  /\ xps_select_best_font_encoding f [] =
     (Examples.Build_table_font [(1, 0); (3, 1)] (Some 1), []).
Proof.
  intros f.
  assert (Hp : Permutation (subtables f) [(1, 0); (3, 1)]) by apply Permutation_refl.
  split; [exact Hp|].
  split; [exact (proj2 (proj2 (selector_follows_priority_list f [])) Hp)|].
  reflexivity.
Defined.

End EncodingProps.

(** ** The tokenizer *)

Module TokenizerProps.
Import Tokenizer Spec FP.

Lemma copy_real_num_offsets (s : string) (off : nat) :
  let '(r, off', st) := copy_real_num s off in
  r = skip (real_num_run s) s
  /\ off' = (off + real_num_run s)%nat
  /\ map fst st = seq off (real_num_run s).
Proof.
  revert off. induction s as [|c s IH]; intros off; simpl.
  - repeat split. lia.
  - destruct (is_real_num_char (code c)); simpl.
    + specialize (IH (S off)). destruct (copy_real_num s (S off)) as [[r off'] st].
      destruct IH as (-> & -> & IH). simpl.
      repeat split; [lia | now f_equal].
    + repeat split. lia.
Qed.

(** The offsets [xps_parse_real_num] stores to are 0, 1, ..., n, where n
    is the length of the run of real-number characters. *)
Lemma real_num_store_offsets (atof : string -> spec_float) (s : string)
  (number : spec_float) :
  map fst (snd (xps_parse_real_num atof s number)) = seq 0 (S (real_num_run s)).
Proof.
  unfold xps_parse_real_num.
  pose proof (copy_real_num_offsets s 0) as Hc.
  destruct (copy_real_num s 0) as [[r off] st]. destruct Hc as (_ & -> & Hst).
  cbn [snd]. rewrite map_app, seq_S.
  f_equal. exact Hst.
Qed.

Lemma in_bounds_offsets (st : list store) :
  in_bounds st = forallb (fun off => (off <? buf_size)%nat) (map fst st).
Proof.
  unfold in_bounds. induction st as [|[off v] st IH]; simpl; [reflexivity|].
  now rewrite IH.
Qed.

Lemma forallb_seq_below (n b : nat) :
  forallb (fun off => (off <? b)%nat) (seq 0 (S n)) = (n <? b)%nat.
Proof.
  destruct (Nat.ltb_spec n b) as [Hlt|Hge].
  - apply forallb_forall. intros k Hk. apply in_seq in Hk.
    apply Nat.ltb_lt. lia.
  - apply not_true_is_false. intros Hall.
    rewrite forallb_forall in Hall. specialize (Hall n).
    rewrite Nat.ltb_lt in Hall. rewrite in_seq in Hall. lia.
Qed.

(** C1, evaluated on the code.  [xps_parse_real_num] stores the whole run
    of real-number characters and then the terminator, so its stores stay
    inside the 64-byte [buf] exactly when the run is shorter than 64
    characters; for a run of 65 digits it stores the 65th digit at offset
    64 and the terminator at offset 65, both beyond the end of [buf]. *)
Theorem real_num_copy_is_unbounded (atof : string -> spec_float) :
  (forall (s : string) (number : spec_float),
      in_bounds (snd (xps_parse_real_num atof s number))
      = (real_num_run s <? buf_size)%nat)
  /\ (let s := "11111111111111111111111111111111111111111111111111111111111111111;7"%string in
      real_num_run s = 65%nat
      /\ in_bounds (snd (xps_parse_real_num atof s f0_0)) = false
      /\ In (64%nat, 49) (snd (xps_parse_real_num atof s f0_0))
      /\ In (65%nat, 0) (snd (xps_parse_real_num atof s f0_0))).
Proof.
  split.
  - intros s number.
    rewrite in_bounds_offsets, real_num_store_offsets.
    apply forallb_seq_below.
  - unfold xps_parse_real_num. cbn -[In in_bounds].
    split; [reflexivity|]. split; [reflexivity|].
    split; simpl; tauto.
Qed.

End TokenizerProps.

(** ** Sign symmetry of the floating-point operations *)

Module FPProps.
Import FP.

Lemma binary_round_aux_opp (prec emax : Z) (s : bool) (m e : Z) (l : location) :
  binary_round_aux prec emax (negb s) m e l =
  SFopp (binary_round_aux prec emax s m e l).
Proof.
  unfold binary_round_aux.
  destruct (shr_fexp prec emax m e l) as [mrs e'].
  destruct (shr_fexp prec emax _ e' loc_Exact) as [mrs' e''].
  destruct (shr_m mrs'); try reflexivity.
  now destruct (e'' <=? emax - prec).
Qed.

Lemma binary_round_opp (prec emax : Z) (s : bool) (m : positive) (e : Z) :
  binary_round prec emax (negb s) m e = SFopp (binary_round prec emax s m e).
Proof.
  unfold binary_round.
  destruct (shl_align m e _) as [mz ez]. apply binary_round_aux_opp.
Qed.

Lemma to_double_opp (x : spec_float) : to_double (SFopp x) = SFopp (to_double x).
Proof. destruct x; simpl; try reflexivity. apply binary_round_opp. Qed.

Lemma to_float_opp (x : spec_float) : to_float (SFopp x) = SFopp (to_float x).
Proof. destruct x; simpl; try reflexivity. apply binary_round_opp. Qed.

Lemma SFmul_opp_l (prec emax : Z) (x y : spec_float) :
  SFmul prec emax (SFopp x) y = SFopp (SFmul prec emax x y).
Proof.
  destruct x as [sx|sx| |sx mx ex], y as [sy|sy| |sy my ey]; simpl;
    try reflexivity; try (now rewrite <- negb_xorb_l).
  rewrite <- negb_xorb_l. apply binary_round_aux_opp.
Qed.

(** [-h * 100.0], stored into a [float], is the negation of [h * 100.0]. *)
Lemma negated_default_advance (h : spec_float) :
  to_float (dmul (to_double (SFopp h)) d100_0) =
  SFopp (to_float (dmul (to_double h) d100_0)).
Proof.
  unfold dmul. now rewrite to_double_opp, SFmul_opp_l, to_float_opp.
Qed.

End FPProps.

(** ** Glyph layout *)

Module LayoutFacts.
Import Tokenizer Spec FP Layout.

Section Facts.
Context {font : Type} `{FontGlyphs font} `{TextServices}.
Variable fnt : font.
Variable size : spec_float.
Variable y : spec_float.

(** A real-number field either supplies a value or leaves [*number] alone;
    it supplies none when no real-number character is under the pointer. *)
Lemma real_num_shape (s : string) :
  exists (s' : string) (o : option spec_float) (st : list store),
    (forall number, xps_parse_real_num atof s number = (s', default number o, st))
    /\ (is_real_num_char (peek s) = false -> o = None).
Proof.
  unfold xps_parse_real_num.
  destruct (copy_real_num s 0) as [[s' off] st] eqn:E.
  exists s'.
  exists (if negb (peek (stored_text (st ++ [(off, 0)])) =? 0)
          then Some (to_float (atof (stored_text (st ++ [(off, 0)]))))
          else None).
  exists (st ++ [(off, 0)]). split.
  - intros number. now destruct (negb _).
  - intros Hc. destruct s as [|c s]; simpl in E.
    + injection E as <- <- <-. reflexivity.
    + simpl in Hc. rewrite Hc in E. injection E as <- <- <-. reflexivity.
Qed.

Lemma metrics_shape (s : string) :
  exists (s' : string) (oa ou ov : option spec_float),
    (forall a u v, xps_parse_glyph_metrics atof s a u v =
                   (s', default a oa, default u ou, default v ov))
    /\ ((peek s =? 44) && is_real_num_char (peek (skip 1 s)) = false -> oa = None).
Proof.
  unfold xps_parse_glyph_metrics.
  destruct (peek s =? 44) eqn:E1.
  - destruct (real_num_shape (skip 1 s)) as (s1 & oa & st1 & H1 & N1).
    destruct (peek s1 =? 44) eqn:E2.
    + destruct (real_num_shape (skip 1 s1)) as (s2 & ou & st2 & H2 & _).
      destruct (peek s2 =? 44) eqn:E3.
      * destruct (real_num_shape (skip 1 s2)) as (s3 & ov & st3 & H3 & _).
        exists s3, oa, ou, ov. split; [|exact N1].
        intros a u v. now rewrite H1, E2, H2, E3, H3.
      * exists s2, oa, ou, None. split; [|exact N1].
        intros a u v. now rewrite H1, E2, H2, E3.
    + exists s1, oa, None, None. split; [|exact N1].
      intros a u v. rewrite H1, E2. cbv beta iota zeta. now rewrite E2.
  - exists s, None, None, None. split; [|reflexivity].
    intros a u v. repeat (rewrite E1; cbv beta iota zeta). reflexivity.
Qed.

(** The advance a glyph mapping without an explicit advance ends up with
    is the default it was given; its offsets do not depend on the default. *)
Lemma mapping_metrics_default (ip : option string) :
  exists (oa : option spec_float) (u v : spec_float),
    (forall dflt, mapping_metrics ip dflt = (default dflt oa, u, v))
    /\ (supplies_advance ip = false -> oa = None).
Proof.
  unfold mapping_metrics, supplies_advance.
  destruct (after_glyph_index ip) as [s|].
  - destruct (nonempty (Some s)) eqn:En.
    + destruct (metrics_shape s) as (s' & oa & ou & ov & Hm & Hn).
      exists oa, (default f0_0 ou), (default f0_0 ov). split; [|exact Hn].
      intros dflt. now rewrite Hm.
    + exists None, f0_0, f0_0. split; reflexivity.
  - exists None, f0_0, f0_0. split; reflexivity.
Qed.

(** The glyph-index stage of one round of the glyph loop. *)
Lemma index_stage (ip : option string) :
  match ip with
  | Some s =>
      if nonempty ip
      then let '(s', g) := xps_parse_glyph_index s (-1) in (Some s', g)
      else (ip, -1)
  | None => (ip, -1)
  end = (after_glyph_index ip, default (-1) (supplied_glyph_index ip)).
Proof.
  destruct ip as [s|]; [|reflexivity].
  unfold after_glyph_index, supplied_glyph_index, xps_parse_glyph_index.
  destruct (nonempty (Some s)) eqn:En.
  - destruct ((48 <=? peek s) && (peek s <=? 57)); [|reflexivity].
    now destruct (xps_parse_digits s).
  - unfold nonempty in En. apply negb_false_iff, Z.eqb_eq in En.
    now rewrite En.
Qed.

(** The metrics stage of one round of the glyph loop. *)
Lemma metrics_stage (ip : option string) (dflt : spec_float) :
  let M := match after_glyph_index ip with
           | Some s =>
               if nonempty (after_glyph_index ip)
               then let '(s', a, u, v) :=
                      xps_parse_glyph_metrics atof s dflt f0_0 f0_0 in
                    (Some (if peek s' =? 59 then skip 1 s' else s'), a, u, v)
               else (after_glyph_index ip, dflt, f0_0, f0_0)
           | None => (after_glyph_index ip, dflt, f0_0, f0_0)
           end in
  (M.1.1.2, M.1.2, M.2) = mapping_metrics ip dflt.
Proof.
  unfold mapping_metrics.
  destruct (after_glyph_index ip) as [s|]; [|reflexivity].
  destruct (nonempty (Some s)); [|reflexivity].
  now destruct (xps_parse_glyph_metrics atof s dflt f0_0 f0_0) as [[[s' a] u] v].
Qed.

(** One round of the glyph loop, in terms of the glyph mapping under the
    Indices pointer: the glyph it adds and where it leaves the pen. *)
Lemma glyph_iteration_result (is_sideways bidi_level char_code : Z)
  (ip : option string) (x : spec_float) :
  let r := glyph_iteration fnt size y is_sideways bidi_level char_code ip x in
  let p := default (-1) (supplied_glyph_index ip) in
  let gi := if p =? -1 then xps_encode_font_char fnt char_code else p in
  let mtx := xps_measure_font_glyph fnt gi in
  let dflt := if negb (is_sideways =? 0)
              then to_float (dmul (to_double (vadv mtx)) d100_0)
              else if negb (Z.land bidi_level 1 =? 0)
              then to_float (dmul (to_double (SFopp (hadv mtx))) d100_0)
              else to_float (dmul (to_double (hadv mtx)) d100_0) in
  let m := mapping_metrics ip dflt in
  let u := scale_by_size size
             (if negb (Z.land bidi_level 1 =? 0)
              then fsub (fmul (SFopp (hadv mtx)) f100) m.1.2
              else m.1.2) in
  let v := scale_by_size size m.2 in
  r.1.2 = advance_pen size x m.1.1
  /\ r.2 = Build_fz_textel gi char_code
             (if negb (is_sideways =? 0)
              then fadd (fadd x u) (fmul (vorg mtx) size)
              else fadd x u)
             (if negb (is_sideways =? 0)
              then to_float (dadd (to_double (fsub y v))
                                  (dmul (dmul (to_double (hadv mtx)) d0_5)
                                        (to_double size)))
              else fsub y v).
Proof.
  cbv zeta. unfold glyph_iteration. rewrite index_stage.
  cbv beta iota zeta.
  set (p := default (-1) (supplied_glyph_index ip)).
  set (gi := if p =? -1 then xps_encode_font_char fnt char_code else p).
  set (mtx := xps_measure_font_glyph fnt gi).
  set (dflt := if negb (is_sideways =? 0) then _ else _).
  pose proof (metrics_stage ip dflt) as HM. cbv zeta in HM.
  destruct (match after_glyph_index ip with Some _ => _ | None => _ end)
    as [[[ip2 a] u] v].
  cbn [fst snd] in HM. rewrite <- HM. cbn [fst snd].
  destruct (negb (is_sideways =? 0)); split; reflexivity.
Qed.

End Facts.
End LayoutFacts.

Module LayoutProps.
Import Tokenizer Spec FP Layout FPProps LayoutFacts.

Lemma land_1_odd (b : Z) : negb (Z.land b 1 =? 0) = Z.odd b.
Proof.
  change 1 with (Z.ones 1). rewrite Z.land_ones by lia.
  change (2 ^ 1) with 2. rewrite Zmod_odd. now destruct (Z.odd b).
Qed.

Section Run.
Context {font : Type} `{FontGlyphs font} `{TextServices}.
Variable fnt : font.
Variable size : spec_float.
Variable y : spec_float.

(** The default advance of the code is the advance the specification
    derives from the metrics. *)
Lemma default_advance_derived (mtx : xps_glyph_metrics) (is_sideways bidi_level : Z) :
  (if negb (is_sideways =? 0)
   then to_float (dmul (to_double (vadv mtx)) d100_0)
   else if negb (Z.land bidi_level 1 =? 0)
        then to_float (dmul (to_double (SFopp (hadv mtx))) d100_0)
        else to_float (dmul (to_double (hadv mtx)) d100_0))
  = derived_advance mtx is_sideways bidi_level.
Proof.
  unfold derived_advance. rewrite land_1_odd, negated_default_advance.
  reflexivity.
Qed.

(** C3. For upright text and an odd bidi level, the glyph is placed with
    the u offset [-hadv*100 - u], [u] being the u offset of the glyph
    mapping (the one an even level places the glyph with), and this
    happens before the scaling by size/100; when the glyph mapping supplies
    no advance, the pen moves by the negation of the advance that an even
    level uses for the same glyph. *)
Theorem rtl_mirrors_offset_and_advance
  (rtl ltr char_code : Z) (ip : option string) (x : spec_float) :
  Z.odd rtl = true -> Z.odd ltr = false ->
  let r1 := glyph_iteration fnt size y 0 rtl char_code ip x in
  let r0 := glyph_iteration fnt size y 0 ltr char_code ip x in
  let mtx := xps_measure_font_glyph fnt (gid r1.2) in
  let advance_ltr := to_float (dmul (to_double (hadv mtx)) d100_0) in
  let m := mapping_metrics ip advance_ltr in
  gid r0.2 = gid r1.2
  /\ el_x r0.2 = fadd x (scale_by_size size m.1.2)
  /\ el_x r1.2 =
     fadd x (scale_by_size size (fsub (fmul (SFopp (hadv mtx)) f100) m.1.2))
  /\ r0.1.2 = advance_pen size x m.1.1
  /\ (supplies_advance ip = false ->
      m.1.1 = advance_ltr /\ r1.1.2 = advance_pen size x (SFopp advance_ltr)).
Proof.
  intros Hrtl Hltr. cbv zeta.
  destruct (glyph_iteration_result fnt size y 0 rtl char_code ip x) as [P1 G1].
  destruct (glyph_iteration_result fnt size y 0 ltr char_code ip x) as [P0 G0].
  change (negb (0 =? 0)) with false in P1, G1, P0, G0.
  rewrite !land_1_odd in P1, G1, P0, G0.
  rewrite !Hrtl in P1, G1. rewrite !Hltr in P0, G0.
  cbv iota in P1, G1, P0, G0.
  rewrite P1, P0, G1, G0. cbn [gid el_x].
  set (p := default (-1) (supplied_glyph_index ip)).
  set (gi := if p =? -1 then xps_encode_font_char fnt char_code else p).
  set (mtx := xps_measure_font_glyph fnt gi).
  destruct (mapping_metrics_default ip) as (oa & u & v & Hm & Hno).
  rewrite !Hm. cbn [fst snd].
  do 4 (split; [reflexivity|]).
  intros Hs. rewrite (Hno Hs). cbn [default].
  split; [reflexivity|]. now rewrite negated_default_advance.
Qed.

(** The glyph loop appends one glyph per round, each with the cluster's
    character code; the first one is the glyph of the first round. *)
Lemma glyph_loop_text (is_sideways bidi_level : Z) (n : nat) (char_code : Z)
  (ip : option string) (x : spec_float) (text : list fz_textel) :
  exists new : list fz_textel,
    (glyph_loop fnt size y is_sideways bidi_level n char_code ip x text).2
      = text ++ new
    /\ length new = n
    /\ Forall (fun g => ucs g = char_code) new
    /\ (forall n', n = S n' ->
        exists rest, new =
          (glyph_iteration fnt size y is_sideways bidi_level char_code ip x).2
          :: rest).
Proof.
  revert ip x text. induction n as [|n IH]; intros ip x text; simpl.
  - exists []. rewrite app_nil_r. repeat split; [constructor | discriminate].
  - pose proof (glyph_iteration_result fnt size y is_sideways bidi_level
                  char_code ip x) as [_ Hg]. cbv zeta in Hg.
    destruct (glyph_iteration fnt size y is_sideways bidi_level char_code ip x)
      as [[ip' x'] el].
    destruct (IH ip' x' (text ++ [el])) as (new & Hn & Hlen & Hall & _).
    exists (el :: new). rewrite Hn, <- app_assoc. simpl.
    split; [reflexivity|]. split; [now rewrite Hlen|].
    split; [|intros n' _; now exists new].
    constructor; [|exact Hall]. simpl in Hg. now rewrite Hg.
Qed.

Lemma last_cons_default {A : Type} (a : A) (l : list A) (d : A) :
  List.last (a :: l) d = List.last l a.
Proof.
  revert a d. induction l as [|b l IH]; intros a d; [reflexivity|].
  change (List.last (a :: b :: l) d) with (List.last (b :: l) d).
  rewrite (IH b d). symmetry. apply (IH b a).
Qed.

(** The code-unit loop leaves the last code point it decoded in
    [char_code], and leaves [char_code] alone when it decoded none. *)
Lemma code_loop_last (n : nat) (char_code : Z) (us : option string) (un : Z) :
  (code_loop n char_code us un).1.1 =
  List.last (decoded_code_points n us un) char_code.
Proof.
  revert char_code us un. induction n as [|n IH]; intros char_code us un.
  - now destruct us.
  - destruct us as [s|]; simpl.
    + destruct (0 <? un) eqn:E.
      * destruct (xps_utf8_to_ucs s un) as [c t]. rewrite IH.
        now rewrite last_cons_default.
      * rewrite IH. destruct n; simpl; [reflexivity | now rewrite E].
    + rewrite IH. now destruct n.
Qed.

Lemma nothing_to_decode (n : nat) (us : option string) (un : Z) :
  us = None \/ un <= 0 -> decoded_code_points n us un = [].
Proof.
  intros [-> | Hun]; destruct n; try reflexivity.
  destruct us as [s|]; simpl; [|reflexivity].
  destruct (Z.ltb_spec 0 un); [lia | reflexivity].
Qed.

(** The text an iteration of the outer loop adds. *)
Lemma cluster_iteration_text (is_sideways bidi_level : Z) (st : run_state) :
  let counts := cluster_counts (st_ip st) in
  let cl := code_loop (Z.to_nat counts.1.2) 63 (st_us st) (st_un st) in
  st_text (cluster_iteration fnt size y is_sideways bidi_level st) =
  (glyph_loop fnt size y is_sideways bidi_level (Z.to_nat counts.2)
     cl.1.1 counts.1.1 (st_x st) (st_text st)).2.
Proof.
  unfold cluster_iteration.
  destruct (cluster_counts (st_ip st)) as [[ip cc] gc]. cbn [fst snd].
  destruct (code_loop (Z.to_nat cc) 63 (st_us st) (st_un st)) as [[c us] un].
  cbn [fst snd].
  now destruct (glyph_loop _ _ _ _ _ _ _ _ _ _) as [[ip' x'] text'].
Qed.

(** C9. The glyphs an iteration of the outer loop places all carry the
    last code point decoded for the cluster, and '?' (63) when none was
    decoded because the Unicode string is absent or used up; in that case
    a glyph mapping without a glyph index gets the font's glyph for '?'.
    In any round the glyph's index is the one the mapping supplies, else
    the font's glyph for the character code. *)
Theorem cluster_character_code (is_sideways bidi_level : Z) (st : run_state) :
  let st' := cluster_iteration fnt size y is_sideways bidi_level st in
  let counts := cluster_counts (st_ip st) in
  let pts := decoded_code_points (Z.to_nat counts.1.2) (st_us st) (st_un st) in
  (exists new : list fz_textel,
      st_text st' = st_text st ++ new
      /\ length new = Z.to_nat counts.2
      /\ Forall (fun g => ucs g = List.last pts 63) new
      /\ (st_us st = None \/ st_un st <= 0 ->
          Forall (fun g => ucs g = 63) new
          /\ (supplied_glyph_index counts.1.1 = None ->
              exists g rest, new = g :: rest
                             /\ gid g = xps_encode_font_char fnt 63)))
  /\ (forall (char_code : Z) (ip : option string) (x : spec_float),
        let g := (glyph_iteration fnt size y is_sideways bidi_level
                    char_code ip x).2 in
        ucs g = char_code
        /\ (supplied_glyph_index ip = None ->
            gid g = xps_encode_font_char fnt char_code)
        /\ (forall i, supplied_glyph_index ip = Some i -> i <> -1 -> gid g = i)).
Proof.
  cbv zeta. split.
  - rewrite cluster_iteration_text. cbv zeta. rewrite code_loop_last.
    set (counts := cluster_counts (st_ip st)).
    set (pts := decoded_code_points _ _ _).
    destruct (glyph_loop_text is_sideways bidi_level (Z.to_nat counts.2)
                (List.last pts 63) counts.1.1 (st_x st) (st_text st))
      as (new & Hn & Hlen & Hall & Hfirst).
    exists new. do 3 (split; [assumption|]).
    intros Hnone. subst pts.
    rewrite (nothing_to_decode _ _ _ Hnone) in *. simpl in Hall, Hfirst.
    split; [exact Hall|]. intros Hsup.
    assert (Hpos : exists n', Z.to_nat counts.2 = S n').
    { subst counts. unfold cluster_counts.
      destruct (match st_ip st with Some _ => _ | None => _ end) as [[ip cc] gc].
      cbn [snd].
      destruct (Z.ltb_spec gc 1); [now exists 0%nat|].
      exists (Z.to_nat (gc - 1)). lia. }
    destruct Hpos as [n' Hn']. destruct (Hfirst n' Hn') as [rest ->].
    eexists _, rest. split; [reflexivity|].
    pose proof (glyph_iteration_result fnt size y is_sideways bidi_level
                  63 counts.1.1 (st_x st)) as [_ Hg]. cbv zeta in Hg.
    rewrite Hg, Hsup. reflexivity.
  - intros char_code ip x.
    pose proof (glyph_iteration_result fnt size y is_sideways bidi_level
                  char_code ip x) as [_ Hg]. cbv zeta in Hg.
    rewrite Hg. cbn [ucs gid]. split; [reflexivity|]. split.
    + intros ->. reflexivity.
    + intros i -> Hi. cbn [default from_option id].
      destruct (Z.eqb_spec i (-1)); [contradiction | reflexivity].
Qed.

Lemma parse_digits_no_digit (t : string) :
  isdigit (peek t) = false -> xps_parse_digits t = (t, 0).
Proof.
  unfold xps_parse_digits, isdigit. destruct t as [|c t]; simpl; [reflexivity|].
  now intros ->.
Qed.

(** The counts a cluster mapping leaves in [code_count] and [glyph_count]. *)
Lemma cluster_mapping_counts (s : string) (c g : Z) :
  (xps_parse_cluster_mapping s c g).1.2
    = (if peek s =? 40 then (xps_parse_digits (skip 1 s)).2 else c)
  /\ (xps_parse_cluster_mapping s c g).2
    = (if peek (after_code_count s) =? 58
       then (xps_parse_digits (skip 1 (after_code_count s))).2 else g).
Proof.
  unfold xps_parse_cluster_mapping, after_code_count.
  destruct (peek s =? 40).
  - destruct (xps_parse_digits (skip 1 s)) as [s1 c1]. cbn [fst snd].
    destruct (peek s1 =? 58).
    + destruct (xps_parse_digits (skip 1 s1)) as [s2 g2]. now split.
    + now split.
  - destruct (peek s =? 58).
    + destruct (xps_parse_digits (skip 1 s)) as [s2 g2]. now split.
    + now split.
Qed.

(** C7. The code-unit count and the glyph count an iteration works with
    are at least 1.  A count the cluster mapping gives digits for is the
    parsed value, replaced by 1 when that is below 1; a count without
    digits parses as 0 and a count the Indices string does not mention
    keeps its default, so both end up as 1; "(0:0)" gives (1, 1).  The
    loops run on the clamped counts: the iteration places exactly
    [glyph_count] glyphs and decodes a code point whenever one is left. *)
Theorem cluster_counts_default_and_clamp
  (is_sideways bidi_level : Z) (ip : option string) :
  let code_count := (cluster_counts ip).1.2 in
  let glyph_count := (cluster_counts ip).2 in
  1 <= code_count /\ 1 <= glyph_count
  /\ (forall s, ip = Some s -> peek s = 40 ->
        code_count = Z.max 1 (xps_parse_digits (skip 1 s)).2)
  /\ ((forall s, ip = Some s -> peek s <> 40) -> code_count = 1)
  /\ (forall s, ip = Some s -> peek (after_code_count s) = 58 ->
        glyph_count = Z.max 1 (xps_parse_digits (skip 1 (after_code_count s))).2)
  /\ ((forall s, ip = Some s -> peek (after_code_count s) <> 58) -> glyph_count = 1)
  /\ (forall t, isdigit (peek t) = false -> (xps_parse_digits t).2 = 0)
  /\ cluster_counts (Some "(0:0)"%string) = (Some ""%string, 1, 1)
  /\ (forall st : run_state, st_ip st = ip ->
        (exists new : list fz_textel,
            st_text (cluster_iteration fnt size y is_sideways bidi_level st)
              = st_text st ++ new
            /\ length new = Z.to_nat glyph_count)
        /\ (forall s, st_us st = Some s -> 0 < st_un st ->
              decoded_code_points (Z.to_nat code_count) (st_us st) (st_un st)
                <> [])).
Proof.
  cbv zeta.
  assert (Hshape :
    (cluster_counts ip).1.2 =
      Z.max 1 (match ip with
               | Some s => if peek s =? 40 then (xps_parse_digits (skip 1 s)).2 else 1
               | None => 1
               end)
    /\ (cluster_counts ip).2 =
      Z.max 1 (match ip with
               | Some s => if peek (after_code_count s) =? 58
                           then (xps_parse_digits (skip 1 (after_code_count s))).2
                           else 1
               | None => 1
               end)).
  { unfold cluster_counts. destruct ip as [s|]; [|now split].
    destruct (nonempty (Some s)) eqn:En.
    - destruct (cluster_mapping_counts s 1 1) as [Hc Hg].
      destruct (xps_parse_cluster_mapping s 1 1) as [[s' c] g].
      cbn [fst snd] in *. subst c g.
      split; match goal with |- (if ?v <? 1 then _ else _) = _ =>
               destruct (Z.ltb_spec v 1); lia end.
    - unfold nonempty in En. apply negb_false_iff, Z.eqb_eq in En.
      unfold after_code_count. rewrite En.
      change (0 =? 40) with false. cbv iota. rewrite En. now split. }
  destruct Hshape as [Hc Hg].
  split; [lia|]. split; [lia|].
  split; [intros s -> Hp; rewrite Hc; now rewrite (proj2 (Z.eqb_eq _ _) Hp)|].
  split.
  { intros Hno. rewrite Hc. destruct ip as [s|]; [|reflexivity].
    now rewrite (proj2 (Z.eqb_neq _ _) (Hno s eq_refl)). }
  split; [intros s -> Hp; rewrite Hg; now rewrite (proj2 (Z.eqb_eq _ _) Hp)|].
  split.
  { intros Hno. rewrite Hg. destruct ip as [s|]; [|reflexivity].
    now rewrite (proj2 (Z.eqb_neq _ _) (Hno s eq_refl)). }
  split; [intros t Ht; now rewrite parse_digits_no_digit|].
  split; [reflexivity|].
  intros st <-. split.
  - rewrite cluster_iteration_text. cbv zeta.
    destruct (glyph_loop_text is_sideways bidi_level
                (Z.to_nat (cluster_counts (st_ip st)).2)
                (code_loop (Z.to_nat (cluster_counts (st_ip st)).1.2) 63
                   (st_us st) (st_un st)).1.1
                (cluster_counts (st_ip st)).1.1 (st_x st) (st_text st))
      as (new & Hn & Hlen & _).
    now exists new.
  - intros s Hs Hun. rewrite Hs.
    destruct (Z.to_nat (cluster_counts (st_ip st)).1.2) as [|n] eqn:En; [lia|].
    simpl. rewrite (proj2 (Z.ltb_lt _ _) Hun).
    now destruct (xps_utf8_to_ucs s (st_un st)).
Qed.

Lemma main_loop_step (is_sideways bidi_level : Z) (fuel : nat) (st : run_state) :
  loop_condition st = true ->
  main_loop fnt size y is_sideways bidi_level (S fuel) st =
  main_loop fnt size y is_sideways bidi_level fuel
    (cluster_iteration fnt size y is_sideways bidi_level st).
Proof. intros Hc. simpl. now rewrite Hc. Qed.

Lemma main_loop_exit (is_sideways bidi_level : Z) (fuel : nat) (st : run_state) :
  loop_condition st = false ->
  main_loop fnt size y is_sideways bidi_level fuel st = Some st.
Proof. intros Hc. destruct fuel; simpl; now rewrite Hc. Qed.

Lemma glyph_iteration_no_indices (is_sideways bidi_level c : Z) (x : spec_float) :
  (glyph_iteration fnt size y is_sideways bidi_level c None x).1.1 = None.
Proof.
  unfold glyph_iteration. cbv beta iota zeta.
  now destruct (negb (is_sideways =? 0)).
Qed.

(** An iteration of the outer loop for a run without Indices string. *)
Lemma unicode_only_step (is_sideways bidi_level : Z) (s : string) (un : Z)
  (x : spec_float) (text : list fz_textel) :
  0 < un ->
  cluster_iteration fnt size y is_sideways bidi_level
    (Build_run_state None (Some s) un x text) =
  let r := glyph_iteration fnt size y is_sideways bidi_level
             (xps_utf8_to_ucs s un).1 None x in
  Build_run_state None (Some (skip (Z.to_nat (xps_utf8_to_ucs s un).2) s))
    (un - (xps_utf8_to_ucs s un).2) r.1.2 (text ++ [r.2]).
Proof.
  intros Hun. unfold cluster_iteration. cbn [st_ip st_us st_un st_x st_text].
  change (cluster_counts None) with (@None string, 1, 1). cbv beta iota.
  change (Z.to_nat 1) with 1%nat. cbn [code_loop glyph_loop].
  rewrite (proj2 (Z.ltb_lt _ _) Hun).
  destruct (xps_utf8_to_ucs s un) as [c t]. cbn [fst snd]. cbv zeta.
  pose proof (glyph_iteration_no_indices is_sideways bidi_level c x) as Hip.
  destruct (glyph_iteration fnt size y is_sideways bidi_level c None x)
    as [[ip' x'] el].
  cbn [fst snd] in *. now subst ip'.
Qed.

(** The run of the outer loop over the Unicode string "AB" without
    Indices string, for a decoder that is right about 7-bit text. *)
Lemma run_AB (is_sideways bidi_level : Z) (x0 : spec_float) (fuel : nat) :
  (forall s n, 0 < peek s < 128 -> 0 < n -> xps_utf8_to_ucs s n = (peek s, 1)) ->
  (2 <= fuel)%nat ->
  let r1 := glyph_iteration fnt size y is_sideways bidi_level 65 None x0 in
  let r2 := glyph_iteration fnt size y is_sideways bidi_level 66 None r1.1.2 in
  main_loop fnt size y is_sideways bidi_level fuel
    (Build_run_state None (Some "AB"%string) 2 x0 []) =
  Some (Build_run_state None (Some ""%string) 0 r2.1.2 [r1.2; r2.2]).
Proof.
  intros Hutf Hfuel. destruct fuel as [|[|fuel]]; try lia. cbv zeta.
  assert (EA : xps_utf8_to_ucs "AB" 2 = (65, 1))
    by (apply (Hutf "AB"%string 2); vm_compute; auto).
  assert (EB : xps_utf8_to_ucs "B" 1 = (66, 1))
    by (apply (Hutf "B"%string 1); vm_compute; auto).
  rewrite main_loop_step by reflexivity.
  rewrite unicode_only_step by lia. rewrite EA. cbv zeta. cbn [fst snd].
  change (skip (Z.to_nat 1) "AB") with "B"%string. change (2 - 1) with 1.
  rewrite main_loop_step by reflexivity.
  rewrite unicode_only_step by lia. rewrite EB. cbv zeta. cbn [fst snd].
  change (skip (Z.to_nat 1) "B") with ""%string. change (1 - 1) with 0.
  now rewrite main_loop_exit by reflexivity.
Qed.

(** A glyph of upright text at an even bidi level without Indices string. *)
Lemma plain_glyph (bidi_level c : Z) (x : spec_float) :
  Z.odd bidi_level = false ->
  let mtx := xps_measure_font_glyph fnt (xps_encode_font_char fnt c) in
  let r := glyph_iteration fnt size y 0 bidi_level c None x in
  r.1.2 = advance_pen size x (to_float (dmul (to_double (hadv mtx)) d100_0))
  /\ r.2 = Build_fz_textel (xps_encode_font_char fnt c) c
             (fadd x (scale_by_size size f0_0))
             (fsub y (scale_by_size size f0_0)).
Proof.
  intros Hb. cbv zeta.
  destruct (glyph_iteration_result fnt size y 0 bidi_level c None x) as [P G].
  cbv zeta in P, G. rewrite !land_1_odd, !Hb in P, G. split; assumption.
Qed.

End Run.

Section EndToEnd.
Context {font : Type} `{FontGlyphs font} `{TextServices}.
Variable fnt : font.

(** C6. After a glyph the pen is moved by [advance * 0.01 * size], that is
    by advance*size/100 with the factors in the order of the code, where
    [advance] is the advance of the glyph mapping or else the advance
    derived from the glyph's metrics.  For UnicodeString "AB" without
    Indices, upright, bidi level 0, a horizontal advance of 0.5 for both
    glyphs, size 10 and origin (0,0), the text holds exactly two glyphs,
    'A' at (0, 0) and 'B' at (5, 0). *)
Theorem pen_advance_and_two_glyph_run :
  (forall (size y : spec_float) (is_sideways bidi_level char_code : Z)
          (ip : option string) (x : spec_float),
      let r := glyph_iteration fnt size y is_sideways bidi_level char_code ip x in
      let mtx := xps_measure_font_glyph fnt (gid r.2) in
      r.1.2 = advance_pen size x
                (mapping_metrics ip (derived_advance mtx is_sideways bidi_level)).1.1)
  /\ ((forall s n, 0 < peek s < 128 -> 0 < n -> xps_utf8_to_ucs s n = (peek s, 1)) ->
      hadv (xps_measure_font_glyph fnt (xps_encode_font_char fnt 65)) = f0_5 ->
      hadv (xps_measure_font_glyph fnt (xps_encode_font_char fnt 66)) = f0_5 ->
      forall (w : warnings) (fuel : nat), (2 <= fuel)%nat ->
        xps_parse_glyphs_imp fnt (float_of_Z 10) f0_0 f0_0 0 0
          None (Some "AB"%string) w fuel =
        Some (Some [Build_fz_textel (xps_encode_font_char fnt 65) 65 f0_0 f0_0;
                    Build_fz_textel (xps_encode_font_char fnt 66) 66
                      (float_of_Z 5) f0_0], w)).
Proof.
  split.
  - intros size y is_sideways bidi_level char_code ip x. cbv zeta.
    destruct (glyph_iteration_result fnt size y is_sideways bidi_level
                char_code ip x) as [P G]. cbv zeta in P, G.
    rewrite default_advance_derived in P. rewrite P, G. reflexivity.
  - intros Hutf HA HB w fuel Hfuel.
    change (xps_parse_glyphs_imp fnt (float_of_Z 10) f0_0 f0_0 0 0
              None (Some "AB"%string) w fuel)
      with (match main_loop fnt (float_of_Z 10) f0_0 0 0 fuel
                    (Build_run_state None (Some "AB"%string) 2 f0_0 []) with
            | Some st => Some (Some (st_text st), w)
            | None => None
            end).
    rewrite (run_AB fnt (float_of_Z 10) f0_0 0 0 f0_0 fuel Hutf Hfuel).
    cbn [st_text].
    destruct (plain_glyph fnt (float_of_Z 10) f0_0 0 65 f0_0 eq_refl) as [P1 G1].
    cbv zeta in P1, G1. rewrite HA in P1. rewrite G1, P1.
    replace (advance_pen (float_of_Z 10) f0_0
               (to_float (dmul (to_double f0_5) d100_0)))
      with (float_of_Z 5) by (vm_compute; reflexivity).
    destruct (plain_glyph fnt (float_of_Z 10) f0_0 0 66 (float_of_Z 5) eq_refl)
      as [_ G2].
    cbv zeta in G2. rewrite G2.
    replace (scale_by_size (float_of_Z 10) f0_0) with f0_0
      by (vm_compute; reflexivity).
    replace (fadd f0_0 f0_0) with f0_0 by (vm_compute; reflexivity).
    replace (fsub f0_0 f0_0) with f0_0 by (vm_compute; reflexivity).
    replace (fadd (float_of_Z 5) f0_0) with (float_of_Z 5)
      by (vm_compute; reflexivity).
    reflexivity.
Qed.

(** C10. A UnicodeString that starts with "{}" is decoded from its third
    character on, whatever follows: the loop starts on the rest of the
    string with its length as the byte count.  So the string "{}" gives an
    empty text, "{}AB" gives what "AB" gives, with the code points 65 and
    66, and in general "{}" followed by text that does not itself start
    with "{}" gives what that text gives. *)
Theorem braces_prefix_is_skipped
  (size originx originy : spec_float) (is_sideways bidi_level : Z)
  (indices : option string) (rest : string) (w : warnings) (fuel : nat) :
  xps_parse_glyphs_imp fnt size originx originy is_sideways bidi_level
    indices (Some ("{}" ++ rest)%string) w fuel =
  match main_loop fnt size originy is_sideways bidi_level fuel
          (Build_run_state indices (Some rest) (Z.of_nat (String.length rest))
             originx []) with
  | Some st => Some (Some (st_text st), w)
  | None => None
  end
  /\ ((peek rest =? 123) && (peek (skip 1 rest) =? 125) = false ->
      xps_parse_glyphs_imp fnt size originx originy is_sideways bidi_level
        indices (Some ("{}" ++ rest)%string) w fuel =
      xps_parse_glyphs_imp fnt size originx originy is_sideways bidi_level
        indices (Some rest) w fuel)
  /\ xps_parse_glyphs_imp fnt size originx originy is_sideways bidi_level
       None (Some "{}"%string) w fuel = Some (Some [], w)
  /\ xps_parse_glyphs_imp fnt size originx originy is_sideways bidi_level
       None (Some "{}AB"%string) w fuel =
     xps_parse_glyphs_imp fnt size originx originy is_sideways bidi_level
       None (Some "AB"%string) w fuel
  /\ ((forall s n, 0 < peek s < 128 -> 0 < n -> xps_utf8_to_ucs s n = (peek s, 1)) ->
      (2 <= fuel)%nat ->
      exists text,
        xps_parse_glyphs_imp fnt size originx originy is_sideways bidi_level
          None (Some "{}AB"%string) w fuel = Some (Some text, w)
        /\ map ucs text = [65; 66]).
Proof.
  assert (Hskip :
    xps_parse_glyphs_imp fnt size originx originy is_sideways bidi_level
      indices (Some ("{}" ++ rest)%string) w fuel =
    match main_loop fnt size originy is_sideways bidi_level fuel
            (Build_run_state indices (Some rest) (Z.of_nat (String.length rest))
               originx []) with
    | Some st => Some (Some (st_text st), w)
    | None => None
    end) by now destruct indices.
  split; [exact Hskip|]. split.
  { intros Hrest. rewrite Hskip. unfold xps_parse_glyphs_imp.
    rewrite Hrest. now destruct indices. }
  split.
  { change (xps_parse_glyphs_imp fnt size originx originy is_sideways bidi_level
              None (Some "{}"%string) w fuel)
      with (match main_loop fnt size originy is_sideways bidi_level fuel
                    (Build_run_state None (Some ""%string) 0 originx []) with
            | Some st => Some (Some (st_text st), w)
            | None => None
            end).
    now rewrite main_loop_exit by reflexivity. }
  split; [reflexivity|].
  intros Hutf Hfuel.
  change (xps_parse_glyphs_imp fnt size originx originy is_sideways bidi_level
            None (Some "{}AB"%string) w fuel)
    with (match main_loop fnt size originy is_sideways bidi_level fuel
                  (Build_run_state None (Some "AB"%string) 2 originx []) with
          | Some st => Some (Some (st_text st), w)
          | None => None
          end).
  rewrite (run_AB fnt size originy is_sideways bidi_level originx fuel Hutf Hfuel).
  eexists. split; [reflexivity|]. cbn [st_text map].
  destruct (glyph_iteration_result fnt size originy is_sideways bidi_level
              65 None originx) as [_ ->].
  destruct (glyph_iteration_result fnt size originy is_sideways bidi_level 66 None
              (glyph_iteration fnt size originy is_sideways bidi_level
                 65 None originx).1.2) as [_ ->].
  reflexivity.
Qed.

End EndToEnd.

Lemma rtl_mirrors_offset_and_advance_witness :
  let r1 := @glyph_iteration _ _ Examples.ascii_text Examples.half_em_font
              (float_of_Z 10) f0_0 0 1 65 (Some "7,,25;8"%string) f0_0 in
  Z.odd 1 = true /\ Z.odd 0 = false
  /\ supplies_advance (Some "7,,25;8"%string) = false
  /\ r1.1.2 = @advance_pen (float_of_Z 10) f0_0
                (SFopp (to_float (dmul (to_double f0_5) d100_0))).
Proof.
  intros r1.
  assert (H1 : Z.odd 1 = true) by reflexivity.
  assert (H0 : Z.odd 0 = false) by reflexivity.
  assert (Hs : supplies_advance (Some "7,,25;8"%string) = false) by reflexivity.
  split; [exact H1|]. split; [exact H0|]. split; [exact Hs|].
  exact (proj2 (proj2 (proj2 (proj2 (proj2
    (@rtl_mirrors_offset_and_advance _ _ Examples.ascii_text
       Examples.half_em_font (float_of_Z 10) f0_0 1 0 65
       (Some "7,,25;8"%string) f0_0 H1 H0)))) Hs)).
Defined.

Lemma cluster_character_code_witness :
  let st := Build_run_state (Some ",50;7"%string) None 0 f0_0 [] in
  (st_us st = None \/ st_un st <= 0)
  /\ supplied_glyph_index (cluster_counts (st_ip st)).1.1 = None
  /\ exists new : list fz_textel,
       st_text (@cluster_iteration _ _ Examples.ascii_text Examples.half_em_font
                  (float_of_Z 10) f0_0 0 0 st) = st_text st ++ new
       /\ Forall (fun g => ucs g = 63) new
       /\ exists g rest, new = g :: rest /\ gid g = 34.
Proof.
  intros st.
  assert (H1 : st_us st = None \/ st_un st <= 0) by (left; reflexivity).
  assert (H2 : supplied_glyph_index (cluster_counts (st_ip st)).1.1 = None)
    by reflexivity.
  split; [exact H1|]. split; [exact H2|].
  destruct (proj1 (@cluster_character_code _ _ Examples.ascii_text
                     Examples.half_em_font (float_of_Z 10) f0_0 0 0 st))
    as (new & Ht & _ & _ & Himp).
  destruct (Himp H1) as [Hall Hg].
  exists new. split; [exact Ht|]. split; [exact Hall|]. exact (Hg H2).
Defined.

Lemma cluster_counts_default_and_clamp_witness :
  let ip := Some "(0:0)7"%string in
  peek "(0:0)7" = 40
  /\ (cluster_counts ip).1.2 = Z.max 1 (xps_parse_digits (skip 1 "(0:0)7")).2
  /\ (cluster_counts ip).1.2 = 1.
Proof.
  intros ip.
  assert (H1 : peek "(0:0)7" = 40) by reflexivity.
  split; [exact H1|]. split; [|reflexivity].
  exact (proj1 (proj2 (proj2
    (@cluster_counts_default_and_clamp _ _ Examples.ascii_text
       Examples.half_em_font (float_of_Z 10) f0_0 0 0 ip)))
    "(0:0)7"%string eq_refl H1).
Defined.

Lemma pen_advance_and_two_glyph_run_witness :
  (forall s n, 0 < peek s < 128 -> 0 < n ->
     @xps_utf8_to_ucs Examples.ascii_text s n = (peek s, 1))
  /\ hadv (xps_measure_font_glyph Examples.half_em_font
             (xps_encode_font_char Examples.half_em_font 65)) = f0_5
  /\ hadv (xps_measure_font_glyph Examples.half_em_font
             (xps_encode_font_char Examples.half_em_font 66)) = f0_5
  /\ (2 <= 2)%nat
  /\ @xps_parse_glyphs_imp _ _ Examples.ascii_text Examples.half_em_font
       (float_of_Z 10) f0_0 f0_0 0 0 None (Some "AB"%string) [] 2 =
     Some (Some [Build_fz_textel 36 65 f0_0 f0_0;
                 Build_fz_textel 37 66 (float_of_Z 5) f0_0], []).
Proof.
  assert (H1 : forall s n, 0 < peek s < 128 -> 0 < n ->
                 @xps_utf8_to_ucs Examples.ascii_text s n = (peek s, 1))
    by (intros; reflexivity).
  assert (H2 : hadv (xps_measure_font_glyph Examples.half_em_font
                       (xps_encode_font_char Examples.half_em_font 65)) = f0_5)
    by reflexivity.
  assert (H3 : hadv (xps_measure_font_glyph Examples.half_em_font
                       (xps_encode_font_char Examples.half_em_font 66)) = f0_5)
    by reflexivity.
  assert (H4 : (2 <= 2)%nat) by lia.
  split; [exact H1|]. split; [exact H2|]. split; [exact H3|]. split; [exact H4|].
  exact (proj2 (@pen_advance_and_two_glyph_run _ _ Examples.ascii_text
                  Examples.half_em_font) H1 H2 H3 [] 2%nat H4).
Defined.

Lemma braces_prefix_is_skipped_witness :
  (peek "AB" =? 123) && (peek (skip 1 "AB") =? 125) = false
  /\ @xps_parse_glyphs_imp _ _ Examples.ascii_text Examples.half_em_font
       (float_of_Z 10) f0_0 f0_0 0 0 None (Some "{}AB"%string) [] 2 =
     @xps_parse_glyphs_imp _ _ Examples.ascii_text Examples.half_em_font
       (float_of_Z 10) f0_0 f0_0 0 0 None (Some "AB"%string) [] 2.
Proof.
  assert (H1 : (peek "AB" =? 123) && (peek (skip 1 "AB") =? 125) = false)
    by reflexivity.
  split; [exact H1|].
  exact (proj1 (proj2 (@braces_prefix_is_skipped _ _ Examples.ascii_text
                         Examples.half_em_font (float_of_Z 10) f0_0 f0_0 0 0
                         None "AB"%string [] 2%nat)) H1).
Defined.

End LayoutProps.

(** ** More on deobfuscation *)

Module DeobfuscateMore.
Import Deobfuscate Spec DeobfuscateFacts DeobfuscateProps LoaderProps.

Lemma lxor_twice (b k : Z) : Z.lxor (Z.lxor b k) k = b.
Proof. now rewrite Z.lxor_assoc, Z.lxor_nilpotent, Z.lxor_0_r. Qed.

(** Running the XOR loop on its own result, with the same key, gives the
    data back. *)
Lemma xor_loop_twice (key d : list Z) :
  (xor_loop key 0 16 (xor_loop key 0 16 d).1).1 = d.
Proof.
  apply list_eq. intros j. rewrite !xor_loop_lookup by lia.
  repeat case_decide; try lia; try reflexivity;
    destruct (d !! j) as [b|]; simpl; try reflexivity;
    now rewrite lxor_twice.
Qed.

(** The loop only looks at the first 16 bytes of the key. *)
Lemma xor_loop_key_ext (k1 k2 : list Z) (todo i : nat) (d : list Z) :
  (forall j, (j < 16)%nat -> nth j k1 0 = nth j k2 0) ->
  xor_loop k1 i todo d = xor_loop k2 i todo d.
Proof.
  intros Hk. revert i d. induction todo as [|todo IH]; intros i d;
    [reflexivity|].
  rewrite !xor_loop_S. cbv zeta.
  rewrite (Hk (15 - i)%nat) by lia. now rewrite IH.
Qed.

Lemma lxor_byte (a b : Z) : 0 <= a < 256 -> 0 <= b < 256 -> 0 <= Z.lxor a b < 256.
Proof.
  intros Ha Hb. split; [apply Z.lxor_nonneg; lia|].
  destruct (Z.eq_dec (Z.lxor a b) 0) as [->|Hne]; [lia|].
  assert (Hpos : 0 < Z.lxor a b).
  { assert (0 <= Z.lxor a b) by (apply Z.lxor_nonneg; lia). lia. }
  change 256 with (2 ^ 8). apply Z.log2_lt_pow2; [exact Hpos|].
  pose proof (Z.log2_lxor a b ltac:(lia) ltac:(lia)) as Hl.
  assert (La : Z.log2 a < 8).
  { destruct (Z.eq_dec a 0) as [->|]; [reflexivity|].
    apply Z.log2_lt_pow2; [lia|]. change (2 ^ 8) with 256. lia. }
  assert (Lb : Z.log2 b < 8).
  { destruct (Z.eq_dec b 0) as [->|]; [reflexivity|].
    apply Z.log2_lt_pow2; [lia|]. change (2 ^ 8) with 256. lia. }
  lia.
Qed.

Lemma make_key_bytes (buf : list Z) (j : nat) : 0 <= nth j (make_key buf) 0 < 256.
Proof.
  destruct (Nat.lt_ge_cases j 16) as [Hj|Hj].
  - rewrite make_key_nth by exact Hj. unfold to_byte.
    apply Z.mod_pos_bound. lia.
  - rewrite nth_overflow; [lia|]. unfold make_key.
    rewrite length_map, length_seq. exact Hj.
Qed.

Lemma xor_loop_bytes (key : list Z) (todo i : nat) (d : list Z) :
  (forall j, 0 <= nth j key 0 < 256) ->
  Forall (fun b => 0 <= b < 256) d ->
  Forall (fun b => 0 <= b < 256) (xor_loop key i todo d).1.
Proof.
  intros Hk. revert i d. induction todo as [|todo IH]; intros i d Hd;
    [exact Hd|].
  rewrite xor_loop_S. cbv zeta. cbn [fst].
  apply IH. apply Forall_alter; [apply Forall_alter; [exact Hd|]|];
    intros b _ Hb; apply lxor_byte; auto.
Qed.

(** The data after a deobfuscation that found its key. *)
Lemma deobfuscated_data (part : xps_part) (w : warnings) :
  (xps_deobfuscate_font_resource part w).1.1 =
  if negb (length (take 32 (hex_digits (final_segment (name part)))) =? 32)%nat
  then part
  else Build_xps_part (name part)
         (xor_loop (make_key (take 32 (hex_digits (final_segment (name part)))))
            0 16 (data part)).1.
Proof.
  unfold xps_deobfuscate_font_resource. rewrite scanned_guid.
  destruct (negb _); [reflexivity|].
  now destruct (xor_loop _ 0 16 (data part)).
Qed.

(** The stores of a deobfuscation depend on the name of the part only. *)
Lemma deobfuscate_stores_by_name (p q : xps_part) (w w' : warnings) :
  name p = name q ->
  (xps_deobfuscate_font_resource p w).2 = (xps_deobfuscate_font_resource q w').2.
Proof.
  intros Hn. unfold xps_deobfuscate_font_resource. rewrite Hn.
  destruct (negb _); [reflexivity|].
  pose proof (xor_loop_stores
    (make_key (collect_guid match strrchr (name q) "/" with
                            | Some p0 => p0 | None => name q end [])) 16 0) as Hst.
  pose proof (Hst (data p)) as Hp. pose proof (Hst (data q)) as Hq.
  destruct (xor_loop _ 0 16 (data p)) as [dp sp].
  destruct (xor_loop _ 0 16 (data q)) as [dq sq].
  cbn [fst snd] in *. congruence.
Qed.

Lemma deobfuscate_twice (part : xps_part) (w w' : warnings) :
  (xps_deobfuscate_font_resource
     (xps_deobfuscate_font_resource part w).1.1 w').1.1 = part.
Proof.
  rewrite (deobfuscated_data part w).
  destruct (negb _) eqn:E.
  - rewrite deobfuscated_data. now rewrite E.
  - rewrite deobfuscated_data. cbn [name data]. rewrite E.
    rewrite xor_loop_twice. now destruct part.
Qed.

(** X1. Deobfuscation is its own inverse: deobfuscating the part that a
    deobfuscation returns gives the first part back, for a part of any
    size and whether or not the name carries a full key. *)
Theorem deobfuscate_involutive (part : xps_part) (w w' : warnings) :
  let once := xps_deobfuscate_font_resource part w in
  let twice := xps_deobfuscate_font_resource once.1.1 w' in
  twice.1.1 = part
  /\ name once.1.1 = name part
  /\ length (data once.1.1) = length (data part).
Proof.
  cbv zeta. split; [apply deobfuscate_twice|].
  split; [apply deobfuscate_keeps_name|].
  rewrite deobfuscated_data. destruct (negb _); [reflexivity|].
  cbn [data]. apply xor_loop_length.
Qed.

Lemma stores_in_data_spec (n : nat) (st : list xor_store) :
  stores_in_data n st = true <->
  forall off k, In (off, k) st -> (off < n)%nat.
Proof.
  unfold stores_in_data. rewrite forallb_forall. split.
  - intros Hall off k Hin. specialize (Hall _ Hin). simpl in Hall.
    now apply Nat.ltb_lt.
  - intros Hall [off k] Hin. apply Nat.ltb_lt. eauto.
Qed.

(** X2. The deobfuscation loop does not look at the size of the part: when
    the name carries a full key, its stores stay inside the data exactly
    when the part has at least 32 bytes; for a shorter part the loop stores
    beyond the end of the part's data. *)
Theorem deobfuscate_overruns_short_parts (part : xps_part) (w : warnings) :
  (32 <= length (hex_digits (final_segment (name part))))%nat ->
  stores_in_data (length (data part)) (xps_deobfuscate_font_resource part w).2
  = (32 <=? length (data part))%nat.
Proof.
  intros Hdigits. unfold xps_deobfuscate_font_resource. rewrite scanned_guid.
  rewrite length_take, Nat.min_l by exact Hdigits. simpl negb. cbv iota.
  pose proof (xor_loop_stores
                (make_key (take 32 (hex_digits (final_segment (name part)))))
                16 0 (data part)) as Hst.
  destruct (xor_loop _ 0 16 (data part)) as [d' st]. cbn [fst snd] in *.
  subst st.
  destruct (Nat.leb_spec 32 (length (data part))) as [Hle|Hlt].
  - apply stores_in_data_spec. intros off k Hin.
    apply in_flat_map in Hin as (j & Hj & Hin). apply in_seq in Hj.
    destruct Hin as [[= <- _]|[[= <- _]|[]]]; lia.
  - apply not_true_is_false. intros Hall.
    rewrite stores_in_data_spec in Hall.
    specialize (Hall 31%nat
      (nth (15 - 15) (make_key (take 32 (hex_digits (final_segment (name part))))) 0)).
    assert (31 < length (data part))%nat; [|lia].
    apply Hall. apply in_flat_map. exists 15%nat.
    split; [apply in_seq; lia | right; left; reflexivity].
Qed.

Lemma deobfuscate_overruns_short_parts_witness :
  let part := Build_xps_part
                "/Resources/0123456789abcdef-0123456789ABCDEF.odttf"
                [0; 1; 2] in
  (32 <= length (hex_digits (final_segment (name part))))%nat
  /\ stores_in_data (length (data part))
       (xps_deobfuscate_font_resource part []).2 = false.
Proof.
  intros part.
  assert (H1 : (32 <= length (hex_digits (final_segment (name part))))%nat)
    by (vm_compute; lia).
  split; [exact H1|].
  exact (deobfuscate_overruns_short_parts part [] H1).
Defined.

Lemma nth_map_take (f : Z -> Z) (ds : list Z) (k : nat) :
  (k < 32)%nat -> (32 <= length ds)%nat ->
  nth k (map f (take 32 ds)) (f 0) = f (nth k ds 0).
Proof.
  intros Hk Hl. rewrite map_nth. f_equal. rewrite nth_firstn.
  destruct (Nat.ltb_spec k 32); [reflexivity | lia].
Qed.

(** X3. The key is the value of the first 32 hexadecimal digits of the last
    path segment and nothing else: two parts with the same data whose last
    segments agree on the values of these digits (whatever the case of the
    letters, the separators between the digits, the directories and the
    text after the 32nd digit) are deobfuscated to the same data. *)
Theorem deobfuscate_key_is_digit_values (p1 p2 : xps_part) (w : warnings) :
  (32 <= length (hex_digits (final_segment (name p1))))%nat ->
  (32 <= length (hex_digits (final_segment (name p2))))%nat ->
  map hex_digit_value (take 32 (hex_digits (final_segment (name p1)))) =
  map hex_digit_value (take 32 (hex_digits (final_segment (name p2)))) ->
  data p1 = data p2 ->
  data (xps_deobfuscate_font_resource p1 w).1.1 =
  data (xps_deobfuscate_font_resource p2 w).1.1
  /\ (xps_deobfuscate_font_resource p1 w).2 =
     (xps_deobfuscate_font_resource p2 w).2.
Proof.
  intros H1 H2 Hv Hd. unfold xps_deobfuscate_font_resource.
  rewrite !scanned_guid, !length_take, !Nat.min_l by assumption.
  simpl negb. cbv iota. rewrite Hd.
  assert (Hk : forall j, (j < 16)%nat ->
    nth j (make_key (take 32 (hex_digits (final_segment (name p1))))) 0 =
    nth j (make_key (take 32 (hex_digits (final_segment (name p2))))) 0).
  { intros j Hj. rewrite !key_byte_of_scan by assumption. unfold guid_key_byte.
    rewrite <- !(nth_map_take hex_digit_value) by (assumption || lia).
    now rewrite Hv. }
  rewrite (xor_loop_key_ext _ _ 16 0 (data p2) Hk).
  now destruct (xor_loop _ 0 16 (data p2)).
Qed.

Lemma deobfuscate_key_is_digit_values_witness :
  let p1 := Build_xps_part
              "/Resources/0123456789abcdef-0123456789ABCDEF.odttf"
              (map Z.of_nat (seq 0 40)) in
  let p2 := Build_xps_part
              "/Fonts/abc/{01234567-89AB-CDEF-0123-456789abcdef}.odttf"
              (map Z.of_nat (seq 0 40)) in
  (32 <= length (hex_digits (final_segment (name p1))))%nat
  /\ (32 <= length (hex_digits (final_segment (name p2))))%nat
  /\ data (xps_deobfuscate_font_resource p1 []).1.1 =
     data (xps_deobfuscate_font_resource p2 []).1.1.
Proof.
  intros p1 p2.
  assert (H1 : (32 <= length (hex_digits (final_segment (name p1))))%nat)
    by (vm_compute; lia).
  assert (H2 : (32 <= length (hex_digits (final_segment (name p2))))%nat)
    by (vm_compute; lia).
  assert (H3 : map hex_digit_value (take 32 (hex_digits (final_segment (name p1)))) =
               map hex_digit_value (take 32 (hex_digits (final_segment (name p2)))))
    by (vm_compute; reflexivity).
  split; [exact H1|]. split; [exact H2|].
  exact (proj1 (deobfuscate_key_is_digit_values p1 p2 [] H1 H2 H3 eq_refl)).
Defined.

(** X4. Deobfuscation keeps the data a byte buffer: when every element of
    the data is in 0..255, so is every element of the result. *)
Theorem deobfuscate_keeps_bytes (part : xps_part) (w : warnings) :
  Forall (fun b => 0 <= b < 256) (data part) ->
  Forall (fun b => 0 <= b < 256) (data (xps_deobfuscate_font_resource part w).1.1).
Proof.
  intros Hd. rewrite deobfuscated_data.
  destruct (negb _); cbn [data]; [exact Hd|].
  apply xor_loop_bytes; [apply make_key_bytes | exact Hd].
Qed.

Lemma deobfuscate_keeps_bytes_witness :
  let part := Build_xps_part
                "/Resources/0123456789abcdef-0123456789ABCDEF.odttf"
                (map Z.of_nat (seq 216 40)) in
  Forall (fun b => 0 <= b < 256) (data part)
  /\ Forall (fun b => 0 <= b < 256)
       (data (xps_deobfuscate_font_resource part []).1.1).
Proof.
  intros part.
  assert (H1 : Forall (fun b => 0 <= b < 256) (data part))
    by (repeat constructor; lia).
  split; [exact H1|].
  exact (deobfuscate_keeps_bytes part [] H1).
Defined.

(** X5. The two tests of the loader are not exclusive: a part whose name
    contains both ".odttf" and ".ODTTF" is deobfuscated twice, and the
    second pass undoes the first, so the font parser gets the bytes the
    part was read with. *)
Theorem loader_double_spelling_cancels (part : xps_part) (w : warnings) :
  occurs_in ".odttf" (name part) -> occurs_in ".ODTTF" (name part) ->
  (deobfuscate_if_necessary part w).1.1 = part
  /\ (deobfuscate_if_necessary part w).2 =
     (xps_deobfuscate_font_resource part w).2
     ++ (xps_deobfuscate_font_resource part w).2.
Proof.
  intros Hl Hu. unfold deobfuscate_if_necessary.
  destruct (strstr_some _ _ Hl) as [r ->].
  pose proof (deobfuscate_keeps_name part w) as Hn.
  pose proof (fun w' => deobfuscate_twice part w w') as Htw.
  pose proof (deobfuscated_data part w) as Hd1.
  destruct (xps_deobfuscate_font_resource part w) as [[p1 w1] st1] eqn:E1.
  cbn [fst snd] in *. rewrite Hn. destruct (strstr_some _ _ Hu) as [r' ->].
  specialize (Htw w1).
  assert (Hst : (xps_deobfuscate_font_resource p1 w1).2 = st1).
  { rewrite (deobfuscate_stores_by_name p1 part w1 w Hn). now rewrite E1. }
  destruct (xps_deobfuscate_font_resource p1 w1) as [[p2 w2] st2].
  cbn [fst snd] in Htw, Hst |- *. split; [exact Htw | now rewrite Hst].
Qed.

Lemma loader_double_spelling_cancels_witness :
  let part := Build_xps_part
                "/Fonts.odttf/0123456789abcdef-0123456789ABCDEF.ODTTF"
                (map Z.of_nat (seq 0 40)) in
  occurs_in ".odttf" (name part) /\ occurs_in ".ODTTF" (name part)
  /\ (deobfuscate_if_necessary part []).1.1 = part.
Proof.
  intros part.
  assert (H1 : occurs_in ".odttf" (name part)).
  { now exists "/Fonts"%string,
               "/0123456789abcdef-0123456789ABCDEF.ODTTF"%string. }
  assert (H2 : occurs_in ".ODTTF" (name part)).
  { now exists "/Fonts.odttf/0123456789abcdef-0123456789ABCDEF"%string,
               ""%string. }
  split; [exact H1|]. split; [exact H2|].
  exact (proj1 (loader_double_spelling_cancels part [] H1 H2)).
Defined.

End DeobfuscateMore.

(** ** More on the tokenizer *)

Module TokenizerMore.
Import Tokenizer Spec SpecMore FP TokenizerProps.

Lemma code_ascii_of (z : Z) : 0 <= z < 256 -> code (ascii_of_N (Z.to_N z)) = z.
Proof.
  intros Hz. unfold code. rewrite N_ascii_embedding by lia. lia.
Qed.

Lemma ascii_of_code (c : ascii) : ascii_of_N (Z.to_N (code c)) = c.
Proof.
  unfold code. rewrite N2Z.id. apply ascii_N_embedding.
Qed.

Lemma code_digit_char (d : Z) : 0 <= d <= 9 -> code (digit_char d) = 48 + d.
Proof. intros Hd. unfold digit_char. apply code_ascii_of. lia. Qed.

Lemma wrap_int_small (z : Z) : 0 <= z < 2 ^ 31 -> wrap_int z = z.
Proof.
  intros Hz. unfold wrap_int.
  change (2 ^ 31) with 2147483648 in *. change (2 ^ 32) with 4294967296.
  rewrite Z.mod_small; lia.
Qed.

Lemma fold_digits_ge (ds : list Z) (acc : Z) :
  Forall (fun d => 0 <= d <= 9) ds -> 0 <= acc ->
  acc <= fold_left (fun a d => a * 10 + d) ds acc.
Proof.
  intros Hds. revert acc. induction Hds as [|d ds Hd _ IH]; intros acc Hacc;
    simpl; [lia|].
  specialize (IH (acc * 10 + d)). lia.
Qed.

Lemma parse_digits_loop_stop (rest : string) (acc : Z) :
  isdigit (peek rest) = false -> parse_digits_loop rest acc = (rest, acc).
Proof.
  unfold isdigit. destruct rest as [|c rest]; simpl; [reflexivity|].
  now intros ->.
Qed.

(** The digit loop on a run of decimal digits whose value fits an [int]. *)
Lemma parse_digits_loop_value (ds : list Z) (rest : string) (acc : Z) :
  Forall (fun d => 0 <= d <= 9) ds ->
  isdigit (peek rest) = false ->
  0 <= acc ->
  fold_left (fun a d => a * 10 + d) ds acc < 2 ^ 31 ->
  parse_digits_loop (digits_string ds ++ rest) acc =
  (rest, fold_left (fun a d => a * 10 + d) ds acc).
Proof.
  intros Hds Hrest. revert acc.
  induction Hds as [|d ds Hd Hds IH]; intros acc Hacc Hlt.
  - simpl. now apply parse_digits_loop_stop.
  - cbn [digits_string append parse_digits_loop fold_left] in *.
    rewrite code_digit_char by exact Hd.
    replace ((48 <=? 48 + d) && (48 + d <=? 57)) with true
      by (symmetry; apply andb_true_iff; split; apply Z.leb_le; lia).
    replace (48 + d - 48) with d by lia.
    pose proof (fold_digits_ge ds (acc * 10 + d) Hds ltac:(lia)) as Hge.
    rewrite wrap_int_small by lia.
    apply IH; [lia | exact Hlt].
Qed.

(** X6. [xps_parse_digits] reads the longest run of decimal digits as a
    decimal number, leading zeros included, and stops at the first other
    character: for digits whose value is below 2^31 and a rest that does
    not start with a digit, it returns the rest and that value; an empty
    run gives 0. *)
Theorem parse_digits_decimal (ds : list Z) (rest : string) :
  Forall (fun d => 0 <= d <= 9) ds ->
  isdigit (peek rest) = false ->
  decimal_value ds < 2 ^ 31 ->
  xps_parse_digits (digits_string ds ++ rest) = (rest, decimal_value ds).
Proof.
  intros Hds Hrest Hlt. unfold xps_parse_digits, decimal_value in *.
  apply parse_digits_loop_value; auto. lia.
Qed.

Lemma parse_digits_decimal_witness :
  Forall (fun d => 0 <= d <= 9) [0; 4; 2]
  /\ isdigit (peek ",7;") = false
  /\ decimal_value [0; 4; 2] < 2 ^ 31
  /\ xps_parse_digits "042,7;" = (",7;"%string, 42).
Proof.
  assert (H1 : Forall (fun d => 0 <= d <= 9) [0; 4; 2])
    by (repeat constructor; lia).
  assert (H2 : isdigit (peek ",7;") = false) by reflexivity.
  assert (H3 : decimal_value [0; 4; 2] < 2 ^ 31) by (vm_compute; reflexivity).
  split; [exact H1|]. split; [exact H2|]. split; [exact H3|].
  exact (parse_digits_decimal [0; 4; 2] ",7;"%string H1 H2 H3).
Defined.

(** X7. A cluster mapping written as "(" digits ":" digits ")" is read back
    as its two counts and the pointer is left behind the ")"; without the
    ":" part the glyph count keeps the value it had.  (Counts below 2^31.) *)
Theorem cluster_mapping_round_trip (cs gs : list Z) (rest : string) (c0 g0 : Z) :
  Forall (fun d => 0 <= d <= 9) cs -> Forall (fun d => 0 <= d <= 9) gs ->
  decimal_value cs < 2 ^ 31 -> decimal_value gs < 2 ^ 31 ->
  xps_parse_cluster_mapping
    ("(" ++ digits_string cs ++ ":" ++ digits_string gs ++ ")" ++ rest) c0 g0
    = (rest, decimal_value cs, decimal_value gs)
  /\ xps_parse_cluster_mapping ("(" ++ digits_string cs ++ ")" ++ rest) c0 g0
    = (rest, decimal_value cs, g0).
Proof.
  intros Hcs Hgs Hc Hg. unfold xps_parse_cluster_mapping. split.
  - change (peek ("(" ++ digits_string cs ++ ":" ++ digits_string gs ++ ")" ++ rest))
      with 40. change (40 =? 40) with true. cbv iota.
    change (skip 1 ("(" ++ digits_string cs ++ ":" ++ digits_string gs ++ ")" ++ rest))
      with (digits_string cs ++ ":" ++ digits_string gs ++ ")" ++ rest)%string.
    rewrite parse_digits_decimal by (auto; reflexivity).
    change (peek (":" ++ digits_string gs ++ ")" ++ rest)) with 58.
    change (58 =? 58) with true. cbv iota.
    change (skip 1 (":" ++ digits_string gs ++ ")" ++ rest))
      with (digits_string gs ++ ")" ++ rest)%string.
    rewrite parse_digits_decimal by (auto; reflexivity).
    reflexivity.
  - change (peek ("(" ++ digits_string cs ++ ")" ++ rest)) with 40.
    change (40 =? 40) with true. cbv iota.
    change (skip 1 ("(" ++ digits_string cs ++ ")" ++ rest))
      with (digits_string cs ++ ")" ++ rest)%string.
    rewrite parse_digits_decimal by (auto; reflexivity).
    reflexivity.
Qed.

Lemma cluster_mapping_round_trip_witness :
  Forall (fun d => 0 <= d <= 9) [2] /\ Forall (fun d => 0 <= d <= 9) [1; 0]
  /\ decimal_value [2] < 2 ^ 31 /\ decimal_value [1; 0] < 2 ^ 31
  /\ xps_parse_cluster_mapping "(2:10)5,7;" 1 1 = ("5,7;"%string, 2, 10).
Proof.
  assert (H1 : Forall (fun d => 0 <= d <= 9) [2]) by (repeat constructor; lia).
  assert (H2 : Forall (fun d => 0 <= d <= 9) [1; 0]) by (repeat constructor; lia).
  assert (H3 : decimal_value [2] < 2 ^ 31) by (vm_compute; reflexivity).
  assert (H4 : decimal_value [1; 0] < 2 ^ 31) by (vm_compute; reflexivity).
  split; [exact H1|]. split; [exact H2|]. split; [exact H3|]. split; [exact H4|].
  exact (proj1 (cluster_mapping_round_trip [2] [1; 0] "5,7;"%string 1 1
                  H1 H2 H3 H4)).
Defined.

Lemma real_num_char_nonzero (c : ascii) :
  is_real_num_char (code c) = true -> (code c =? 0) = false.
Proof.
  unfold is_real_num_char. intros Hc. apply Z.eqb_neq. intros E.
  rewrite E in Hc. discriminate.
Qed.

(** What the copying loop leaves in [buf] is the run of real-number
    characters. *)
Lemma copy_real_num_text (s : string) (off : nat) (z : nat) :
  stored_text ((copy_real_num s off).2 ++ [(z, 0)]) = real_num_text s.
Proof.
  revert off. induction s as [|c s IH]; intros off; [reflexivity|].
  cbn [copy_real_num real_num_text].
  destruct (is_real_num_char (code c)) eqn:Ec; [|reflexivity].
  specialize (IH (S off)).
  destruct (copy_real_num s (S off)) as [[r off'] st]. cbn [snd] in *.
  cbn [app stored_text]. rewrite (real_num_char_nonzero c Ec).
  now rewrite ascii_of_code, IH.
Qed.

(** X8. For a field shorter than the 64-byte scratch buffer,
    [xps_parse_real_num] moves the pointer over exactly the run of
    real-number characters and, when the run is not empty, stores
    [atof] of exactly that run, as a [float]; an empty run leaves the
    number as it was. *)
Theorem real_num_value (atof : string -> spec_float) (s : string)
  (number : spec_float) :
  (real_num_run s < buf_size)%nat ->
  (xps_parse_real_num atof s number).1 =
  (skip (real_num_run s) s,
   match real_num_text s with
   | EmptyString => number
   | t => to_float (atof t)
   end).
Proof.
  intros _. unfold xps_parse_real_num.
  pose proof (copy_real_num_offsets s 0) as Hc.
  pose proof (copy_real_num_text s 0) as Ht.
  destruct (copy_real_num s 0) as [[r off] st]. destruct Hc as (-> & -> & _).
  cbn [fst snd] in *. rewrite Ht.
  destruct (real_num_text s) as [|c t] eqn:Et; [reflexivity|].
  assert (Hc : (code c =? 0) = false).
  { destruct s as [|c' s']; [discriminate|]. cbn [real_num_text] in Et.
    destruct (is_real_num_char (code c')) eqn:Ec; [|discriminate].
    injection Et as <- _. now apply real_num_char_nonzero. }
  cbn [peek]. now rewrite Hc.
Qed.

Lemma real_num_value_witness :
  (real_num_run "10.5,1;7" < buf_size)%nat
  /\ (xps_parse_real_num (fun _ => S754_nan) "10.5,1;7" f0_0).1 =
     (",1;7"%string, S754_nan).
Proof.
  assert (H1 : (real_num_run "10.5,1;7" < buf_size)%nat) by (vm_compute; lia).
  split; [exact H1|].
  exact (real_num_value (fun _ => S754_nan) "10.5,1;7"%string f0_0 H1).
Defined.

Lemma real_num_run_app (t rest : string) :
  real_num_string t = true -> is_real_num_char (peek rest) = false ->
  real_num_run (t ++ rest) = String.length t
  /\ real_num_text (t ++ rest) = t
  /\ skip (String.length t) (t ++ rest) = rest.
Proof.
  unfold real_num_string. intros Ht Hrest.
  induction t as [|c t IH]; cbn [append codes forallb] in *.
  - destruct rest as [|c rest]; [now repeat split|].
    simpl in Hrest. simpl. now rewrite Hrest.
  - apply andb_true_iff in Ht as [Hc Ht]. destruct (IH Ht) as (E1 & E2 & E3).
    cbn [real_num_run real_num_text String.length skip]. rewrite Hc.
    now rewrite E1, E2, E3.
Qed.

(** One metrics field followed by something that is no real-number
    character. *)
Lemma real_num_field (atof : string -> spec_float) (t rest : string)
  (number : spec_float) :
  real_num_string t = true -> is_real_num_char (peek rest) = false ->
  (xps_parse_real_num atof (t ++ rest) number).1 = (rest, field_value atof t number).
Proof.
  intros Ht Hrest. destruct (real_num_run_app t rest Ht Hrest) as (E1 & E2 & E3).
  unfold xps_parse_real_num.
  pose proof (copy_real_num_offsets (t ++ rest) 0) as Hc.
  pose proof (copy_real_num_text (t ++ rest) 0) as Hx.
  destruct (copy_real_num (t ++ rest) 0) as [[r off] st].
  destruct Hc as (-> & -> & _). cbn [fst snd] in *.
  rewrite Hx, E1, E2, E3. unfold field_value.
  destruct t as [|c t]; [reflexivity|].
  cbn [codes forallb real_num_string] in Ht. unfold real_num_string in Ht.
  cbn [codes forallb] in Ht. apply andb_true_iff in Ht as [Hc _].
  cbn [peek]. now rewrite (real_num_char_nonzero c Hc).
Qed.

(** One "," field of [xps_parse_glyph_metrics]. *)
Lemma metrics_field_step (atof : string -> spec_float) (t rest : string)
  (number : spec_float) :
  real_num_string t = true -> is_real_num_char (peek rest) = false ->
  (if peek (String "," (t ++ rest)) =? 44
   then let '(s', a, _) :=
          xps_parse_real_num atof (skip 1 (String "," (t ++ rest))) number in
        (s', a)
   else (String "," (t ++ rest), number))
  = (rest, field_value atof t number).
Proof.
  intros Ht Hrest. change (peek (String "," (t ++ rest)) =? 44) with true.
  cbv iota. cbn [skip].
  pose proof (real_num_field atof t rest number Ht Hrest) as E.
  destruct (xps_parse_real_num atof (t ++ rest) number) as [[s1 a1] st1].
  cbn [fst] in E. now injection E as -> ->.
Qed.

(** X9. The metrics of a glyph mapping are positional: in
    "," advance "," uOffset "," vOffset each field that is not empty sets
    its number to [atof] of its text and an empty field leaves its number
    alone without shifting the later fields; parsing stops behind the
    third field, and behind the first when no second "," follows. *)
Theorem glyph_metrics_positional (atof : string -> spec_float)
  (a u v rest : string) (adv0 u0 v0 : spec_float) :
  real_num_string a = true -> real_num_string u = true ->
  real_num_string v = true ->
  (String.length a < 64)%nat -> (String.length u < 64)%nat ->
  (String.length v < 64)%nat ->
  is_real_num_char (peek rest) = false ->
  xps_parse_glyph_metrics atof ("," ++ a ++ "," ++ u ++ "," ++ v ++ rest)
    adv0 u0 v0 =
    (rest, field_value atof a adv0, field_value atof u u0, field_value atof v v0)
  /\ (peek rest <> 44 ->
      xps_parse_glyph_metrics atof ("," ++ a ++ rest) adv0 u0 v0 =
        (rest, field_value atof a adv0, u0, v0)).
Proof.
  intros Ha Hu Hv _ _ _ Hrest. unfold xps_parse_glyph_metrics.
  cbn [append]. split.
  - rewrite (metrics_field_step atof a (String "," (u ++ String "," (v ++ rest)))
               adv0 Ha eq_refl).
    rewrite (metrics_field_step atof u (String "," (v ++ rest)) u0 Hu eq_refl).
    now rewrite (metrics_field_step atof v rest v0 Hv Hrest).
  - intros Hno. rewrite (metrics_field_step atof a rest adv0 Ha Hrest).
    rewrite (proj2 (Z.eqb_neq _ _) Hno). cbv beta iota zeta.
    now rewrite (proj2 (Z.eqb_neq _ _) Hno).
Qed.

Lemma glyph_metrics_positional_witness :
  real_num_string "" = true /\ real_num_string "-1.5" = true
  /\ real_num_string "2" = true
  /\ (String.length "" < 64)%nat /\ (String.length "-1.5" < 64)%nat
  /\ (String.length "2" < 64)%nat
  /\ is_real_num_char (peek ";7") = false
  /\ xps_parse_glyph_metrics (fun _ => S754_nan) ",,-1.5,2;7" f0_0 f0_0 f0_0 =
     (";7"%string, f0_0, S754_nan, S754_nan).
Proof.
  assert (H1 : real_num_string "" = true) by reflexivity.
  assert (H2 : real_num_string "-1.5" = true) by reflexivity.
  assert (H3 : real_num_string "2" = true) by reflexivity.
  assert (H4 : (String.length "" < 64)%nat) by (simpl; lia).
  assert (H5 : (String.length "-1.5" < 64)%nat) by (simpl; lia).
  assert (H6 : (String.length "2" < 64)%nat) by (simpl; lia).
  assert (H7 : is_real_num_char (peek ";7") = false) by reflexivity.
  repeat (split; [assumption|]).
  exact (proj1 (glyph_metrics_positional (fun _ => S754_nan)
                  ""%string "-1.5"%string "2"%string ";7"%string
                  f0_0 f0_0 f0_0 H1 H2 H3 H4 H5 H6 H7)).
Defined.

End TokenizerMore.

(** ** More on the glyph layout *)

Module LayoutMore.
Import Tokenizer Spec SpecMore FP Layout FPProps LayoutFacts LayoutProps
  TokenizerMore.

Section Run.
Context {font : Type} `{FontGlyphs font} `{TextServices}.
Variable fnt : font.
Variable size : spec_float.
Variable y : spec_float.

Lemma glyph_iteration_parity (is_sideways b b' char_code : Z)
  (ip : option string) (x : spec_float) :
  Z.odd b = Z.odd b' ->
  glyph_iteration fnt size y is_sideways b char_code ip x =
  glyph_iteration fnt size y is_sideways b' char_code ip x.
Proof.
  intros Hp. unfold glyph_iteration. rewrite !land_1_odd. now rewrite Hp.
Qed.

Lemma glyph_loop_parity (is_sideways b b' : Z) (n : nat) (char_code : Z)
  (ip : option string) (x : spec_float) (text : list fz_textel) :
  Z.odd b = Z.odd b' ->
  glyph_loop fnt size y is_sideways b n char_code ip x text =
  glyph_loop fnt size y is_sideways b' n char_code ip x text.
Proof.
  intros Hp. revert ip x text. induction n as [|n IH]; intros ip x text;
    [reflexivity|].
  cbn [glyph_loop]. rewrite (glyph_iteration_parity _ b b' _ _ _ Hp).
  destruct (glyph_iteration fnt size y is_sideways b' char_code ip x)
    as [[ip' x'] el].
  apply IH.
Qed.

Lemma main_loop_parity (is_sideways b b' : Z) (fuel : nat) (st : run_state) :
  Z.odd b = Z.odd b' ->
  main_loop fnt size y is_sideways b fuel st =
  main_loop fnt size y is_sideways b' fuel st.
Proof.
  intros Hp. revert st. induction fuel as [|fuel IH]; intros st;
    [reflexivity|].
  cbn [main_loop]. destruct (loop_condition st); [|reflexivity].
  rewrite IH. f_equal. unfold cluster_iteration.
  destruct (cluster_counts (st_ip st)) as [[ip cc] gc].
  destruct (code_loop (Z.to_nat cc) 63 (st_us st) (st_un st)) as [[c us] un].
  now rewrite (glyph_loop_parity _ b b' _ _ _ _ _ Hp).
Qed.

(** The fields of the state after an iteration of the outer loop. *)
Lemma cluster_iteration_fields (is_sideways bidi_level : Z) (st : run_state) :
  let counts := cluster_counts (st_ip st) in
  let cl := code_loop (Z.to_nat counts.1.2) 63 (st_us st) (st_un st) in
  let gl := glyph_loop fnt size y is_sideways bidi_level (Z.to_nat counts.2)
              cl.1.1 counts.1.1 (st_x st) (st_text st) in
  cluster_iteration fnt size y is_sideways bidi_level st =
  Build_run_state gl.1.1 cl.1.2 cl.2 gl.1.2 gl.2.
Proof.
  unfold cluster_iteration.
  destruct (cluster_counts (st_ip st)) as [[ip cc] gc]. cbn [fst snd].
  destruct (code_loop (Z.to_nat cc) 63 (st_us st) (st_un st)) as [[c us] un].
  cbn [fst snd].
  now destruct (glyph_loop _ _ _ _ _ _ _ _ _ _) as [[ip' x'] text'].
Qed.

Lemma code_loop_idle (n : nat) (c : Z) (us : option string) (un : Z) :
  us = None \/ un <= 0 -> code_loop n c us un = (c, us, un).
Proof.
  intros Hn. induction n as [|n IH]; [reflexivity|].
  cbn [code_loop]. destruct us as [s|]; [|exact IH].
  destruct (Z.ltb_spec 0 un) as [Hlt|_]; [|exact IH].
  destruct Hn as [Hn|Hn]; [discriminate | lia].
Qed.

(** Without a Unicode string every glyph carries '?'. *)
Lemma main_loop_question_marks (is_sideways bidi_level : Z) (fuel : nat)
  (st st' : run_state) :
  st_us st = None -> Forall (fun g => ucs g = 63) (st_text st) ->
  main_loop fnt size y is_sideways bidi_level fuel st = Some st' ->
  Forall (fun g => ucs g = 63) (st_text st').
Proof.
  revert st. induction fuel as [|fuel IH]; intros st Hus Hall; cbn [main_loop].
  - destruct (loop_condition st); [discriminate|]. now intros [= <-].
  - destruct (loop_condition st); [|now intros [= <-]].
    apply IH.
    + rewrite cluster_iteration_fields. cbv zeta. cbn [st_us].
      rewrite code_loop_idle by (left; exact Hus). exact Hus.
    + rewrite cluster_iteration_fields. cbv zeta. cbn [st_text].
      rewrite code_loop_idle by (left; exact Hus). cbn [fst].
      destruct (glyph_loop_text fnt size y is_sideways bidi_level
                  (Z.to_nat (cluster_counts (st_ip st)).2) 63
                  (cluster_counts (st_ip st)).1.1 (st_x st) (st_text st))
        as (new & -> & _ & Hnew & _).
      apply Forall_app. split; assumption.
Qed.

(** A real-number field that starts with a real-number character sets the
    number, whatever it was. *)
Lemma real_num_overrides (s : string) (n n' : spec_float) :
  is_real_num_char (peek s) = true ->
  (xps_parse_real_num atof s n).1 = (xps_parse_real_num atof s n').1.
Proof.
  intros Hc. unfold xps_parse_real_num.
  pose proof (copy_real_num_text s 0) as Ht.
  destruct (copy_real_num s 0) as [[r off] st]. cbn [snd] in Ht.
  rewrite Ht. destruct s as [|c s]; [discriminate|].
  cbn [peek] in Hc. cbn [real_num_text]. rewrite Hc. cbn [peek fst].
  now rewrite (real_num_char_nonzero c Hc).
Qed.

(** The advance a glyph mapping supplies does not depend on the default. *)
Lemma supplied_advance (ip : option string) (d d' : spec_float) :
  supplies_advance ip = true ->
  (mapping_metrics ip d).1.1 = (mapping_metrics ip d').1.1.
Proof.
  unfold supplies_advance, mapping_metrics.
  destruct (after_glyph_index ip) as [s|]; [|discriminate].
  intros Hs. apply andb_true_iff in Hs as [Hc Hr].
  assert (Hn : nonempty (Some s) = true).
  { unfold nonempty. apply Z.eqb_eq in Hc. now rewrite Hc. }
  rewrite Hn. unfold xps_parse_glyph_metrics. rewrite Hc.
  pose proof (real_num_overrides (skip 1 s) d d' Hr) as E.
  destruct (xps_parse_real_num atof (skip 1 s) d) as [[s1 a1] st1].
  destruct (xps_parse_real_num atof (skip 1 s) d') as [[s2 a2] st2].
  cbn [fst] in E. injection E as -> ->.
  destruct (peek s2 =? 44); [|reflexivity].
  destruct (xps_parse_real_num atof (skip 1 s2) f0_0) as [[s3 u3] st3].
  destruct (peek s3 =? 44); [|reflexivity].
  now destruct (xps_parse_real_num atof (skip 1 s3) f0_0) as [[s4 v4] st4].
Qed.


Lemma stuck_char_facts (c : Z) :
  stuck_char c = true ->
  (c =? 0) = false /\ (c =? 40) = false /\ (c =? 58) = false
  /\ (c =? 41) = false /\ (c =? 44) = false /\ (c =? 59) = false
  /\ (48 <=? c) && (c <=? 57) = false.
Proof.
  unfold stuck_char.
  destruct (c =? 0), (c =? 40), (c =? 58), (c =? 41), (c =? 44), (c =? 59),
    ((48 <=? c) && (c <=? 57)); cbn; intros Hs; try discriminate;
    repeat split.
Qed.

(** An Indices pointer on a character that no parser accepts stays where
    it is through a whole iteration of the outer loop. *)
Lemma stuck_glyph_iteration (sw b char_code : Z) (s : string) (x : spec_float) :
  stuck_char (peek s) = true ->
  (glyph_iteration fnt size y sw b char_code (Some s) x).1.1 = Some s.
Proof.
  intros Hs.
  destruct (stuck_char_facts _ Hs) as (E0 & E40 & E58 & E41 & E44 & E59 & Ed).
  remember (Some s) as ip eqn:Hip.
  unfold glyph_iteration. rewrite index_stage. cbv beta iota zeta.
  assert (Ha : after_glyph_index ip = ip).
  { subst ip. unfold after_glyph_index, nonempty, xps_parse_glyph_index.
    rewrite E0. cbn [negb]. now rewrite Ed. }
  rewrite Ha. subst ip. unfold nonempty. rewrite E0. cbn [negb].
  unfold xps_parse_glyph_metrics. rewrite E44. cbv beta iota zeta.
  rewrite E44. cbv beta iota zeta. rewrite E44, E59. cbv beta iota zeta.
  now destruct (negb (sw =? 0)).
Qed.

Lemma stuck_glyph_loop (sw b : Z) (n : nat) (char_code : Z) (s : string)
  (x : spec_float) (text : list fz_textel) :
  stuck_char (peek s) = true ->
  (glyph_loop fnt size y sw b n char_code (Some s) x text).1.1 = Some s.
Proof.
  intros Hs. revert x text. induction n as [|n IH]; intros x text;
    [reflexivity|].
  cbn [glyph_loop].
  pose proof (stuck_glyph_iteration sw b char_code s x Hs) as Hg.
  destruct (glyph_iteration fnt size y sw b char_code (Some s) x)
    as [[ip' x'] el].
  cbn [fst] in Hg. subst ip'. apply IH.
Qed.

Lemma stuck_cluster_counts (s : string) :
  stuck_char (peek s) = true -> cluster_counts (Some s) = (Some s, 1, 1).
Proof.
  intros Hs.
  destruct (stuck_char_facts _ Hs) as (E0 & E40 & E58 & E41 & E44 & E59 & Ed).
  unfold cluster_counts, nonempty, xps_parse_cluster_mapping.
  rewrite E0. cbn [negb]. rewrite E40. cbv beta iota zeta.
  rewrite E58. cbv beta iota zeta. now rewrite E41.
Qed.

(** With the Unicode string used up and the Indices pointer stuck, the
    outer loop does not reach its exit. *)
Lemma stuck_main_loop (sw b : Z) (s : string) (fuel : nat) (st : run_state) :
  stuck_char (peek s) = true ->
  st_ip st = Some s -> (st_us st = None \/ st_un st <= 0) ->
  main_loop fnt size y sw b fuel st = None.
Proof.
  intros Hs. assert (Hne : nonempty (Some s) = true).
  { destruct (stuck_char_facts _ Hs) as (E0 & _).
    unfold nonempty. now rewrite E0. }
  revert st. induction fuel as [|fuel IH]; intros st Hip Hus; cbn [main_loop];
    (assert (Hc : loop_condition st = true)
       by (unfold loop_condition; rewrite Hip, Hne; apply orb_true_r));
    rewrite Hc; [reflexivity|].
  apply IH; rewrite cluster_iteration_fields; cbv zeta;
    cbn [st_ip st_us st_un]; rewrite Hip, stuck_cluster_counts by exact Hs;
    cbn [fst snd]; rewrite code_loop_idle by exact Hus; cbn [fst snd].
  - now apply stuck_glyph_loop.
  - exact Hus.
Qed.

(** The outer loop over a 7-bit Unicode string without Indices string. *)
Lemma ascii_run (sw b : Z) (s : string) :
  (forall s n, 0 < peek s < 128 -> 0 < n -> xps_utf8_to_ucs s n = (peek s, 1)) ->
  Forall (fun c => 0 < c < 128) (codes s) ->
  forall (fuel : nat) (x : spec_float) (text : list fz_textel),
    (String.length s <= fuel)%nat ->
    exists st',
      main_loop fnt size y sw b fuel
        (Build_run_state None (Some s) (Z.of_nat (String.length s)) x text)
        = Some st'
      /\ map ucs (st_text st') = map ucs text ++ codes s
      /\ map gid (st_text st') =
         map gid text ++ map (xps_encode_font_char fnt) (codes s).
Proof.
  intros Hutf. induction s as [|c s IH]; intros Hall fuel x text Hfuel.
  - rewrite main_loop_exit by reflexivity. eexists. split; [reflexivity|].
    cbn [st_text codes map]. now rewrite !app_nil_r.
  - cbn [codes] in Hall. apply Forall_cons in Hall as [Hc Hall].
    cbn [String.length] in Hfuel. destruct fuel as [|fuel]; [lia|].
    rewrite main_loop_step.
    2:{ unfold loop_condition. cbn [st_us st_un].
        apply orb_true_iff. left. apply Z.ltb_lt. cbn [String.length]. lia. }
    rewrite unicode_only_step by (cbn [String.length]; lia).
    rewrite (Hutf (String c s)) by (cbn [peek String.length]; lia).
    cbv zeta. cbn [fst snd]. change (Z.to_nat 1) with 1%nat. cbn [skip].
    replace (Z.of_nat (String.length (String c s)) - 1)
      with (Z.of_nat (String.length s)) by (cbn [String.length]; lia).
    cbn [peek].
    destruct (glyph_iteration_result fnt size y sw b (code c) None x) as [_ G].
    cbv zeta in G.
    destruct (IH Hall fuel
                (glyph_iteration fnt size y sw b (code c) None x).1.2
                (text ++ [(glyph_iteration fnt size y sw b (code c) None x).2])
                ltac:(lia)) as (st' & Hm & Hu & Hg).
    exists st'. split; [exact Hm|].
    rewrite Hu, Hg, !map_app, G. cbn [map ucs gid codes app].
    rewrite <- !app_assoc. split; reflexivity.
Qed.

End Run.

Section Runs.
Context {font : Type} `{FontGlyphs font} `{TextServices}.
Variable fnt : font.

(** X10. The layout looks at the bidi level through its lowest bit only:
    two levels of the same parity, negative ones included, give the same
    text for the same run. *)
Theorem layout_depends_on_bidi_parity
  (size originx originy : spec_float) (is_sideways b b' : Z)
  (indices unicode : option string) (w : warnings) (fuel : nat) :
  Z.odd b = Z.odd b' ->
  xps_parse_glyphs_imp fnt size originx originy is_sideways b
    indices unicode w fuel =
  xps_parse_glyphs_imp fnt size originx originy is_sideways b'
    indices unicode w fuel.
Proof.
  intros Hp. unfold xps_parse_glyphs_imp.
  destruct unicode as [u|], indices as [i|]; try reflexivity;
    now rewrite (main_loop_parity fnt size originy is_sideways b b' fuel _ Hp).
Qed.


(** X13. A run without Indices string whose UnicodeString is 7-bit text
    (and does not start with "{}") ends after one iteration per character
    and places one glyph per character, in order, each with the character
    as its code and the font's glyph for that character, for a decoder that
    is right about 7-bit text. *)
Theorem ascii_run_places_one_glyph_per_character
  (size originx originy : spec_float) (is_sideways bidi_level : Z)
  (u : string) (w : warnings) (fuel : nat) :
  (forall s n, 0 < peek s < 128 -> 0 < n -> xps_utf8_to_ucs s n = (peek s, 1)) ->
  Forall (fun c => 0 < c < 128) (codes u) ->
  (peek u =? 123) && (peek (skip 1 u) =? 125) = false ->
  (String.length u <= fuel)%nat ->
  exists text,
    xps_parse_glyphs_imp fnt size originx originy is_sideways bidi_level
      None (Some u) w fuel = Some (Some text, w)
    /\ map ucs text = codes u
    /\ map gid text = map (xps_encode_font_char fnt) (codes u).
Proof.
  intros Hutf Hall Hbr Hfuel. unfold xps_parse_glyphs_imp. rewrite Hbr.
  destruct (ascii_run fnt size originy is_sideways bidi_level u Hutf Hall
              fuel originx [] Hfuel) as (st' & -> & Hu & Hg).
  exists (st_text st'). now repeat split.
Qed.

(** X14. When the Indices pointer reaches a character that no parser
    accepts (anything but a digit, "(", ":", ")", "," and ";") and no
    UnicodeString is left, an iteration of the outer loop adds glyphs and
    moves no pointer, so the loop never ends: a run whose Indices string
    starts with such a character and that has no UnicodeString does not
    return, however many iterations it is given. *)
Theorem stuck_indices_never_return
  (size originx originy : spec_float) (is_sideways bidi_level : Z)
  (s : string) (w : warnings) :
  stuck_char (peek s) = true ->
  forall fuel : nat,
    xps_parse_glyphs_imp fnt size originx originy is_sideways bidi_level
      (Some s) None w fuel = None.
Proof.
  intros Hs fuel. unfold xps_parse_glyphs_imp.
  rewrite (stuck_main_loop fnt size originy is_sideways bidi_level s fuel
             (Build_run_state (Some s) None 0 originx []) Hs eq_refl
             (or_introl eq_refl)).
  reflexivity.
Qed.

End Runs.

Lemma layout_depends_on_bidi_parity_witness :
  Z.odd (-3) = Z.odd 1
  /\ @xps_parse_glyphs_imp _ _ Examples.ascii_text Examples.half_em_font
       (float_of_Z 10) f0_0 f0_0 0 (-3) (Some "5,,20;6"%string)
       (Some "AB"%string) [] 3 =
     @xps_parse_glyphs_imp _ _ Examples.ascii_text Examples.half_em_font
       (float_of_Z 10) f0_0 f0_0 0 1 (Some "5,,20;6"%string)
       (Some "AB"%string) [] 3.
Proof.
  assert (H1 : Z.odd (-3) = Z.odd 1) by reflexivity.
  split; [exact H1|].
  exact (@layout_depends_on_bidi_parity _ _ Examples.ascii_text
           Examples.half_em_font (float_of_Z 10) f0_0 f0_0 0 (-3) 1
           (Some "5,,20;6"%string) (Some "AB"%string) [] 3%nat H1).
Defined.



Lemma ascii_run_places_one_glyph_per_character_witness :
  (forall s n, 0 < peek s < 128 -> 0 < n ->
     @xps_utf8_to_ucs Examples.ascii_text s n = (peek s, 1))
  /\ Forall (fun c => 0 < c < 128) (codes "Hi!")
  /\ (peek "Hi!" =? 123) && (peek (skip 1 "Hi!") =? 125) = false
  /\ (String.length "Hi!" <= 3)%nat
  /\ exists text,
       @xps_parse_glyphs_imp _ _ Examples.ascii_text Examples.half_em_font
         (float_of_Z 10) f0_0 f0_0 0 0 None (Some "Hi!"%string) [] 3 =
       Some (Some text, [])
       /\ map ucs text = [72; 105; 33].
Proof.
  assert (H1 : forall s n, 0 < peek s < 128 -> 0 < n ->
                 @xps_utf8_to_ucs Examples.ascii_text s n = (peek s, 1))
    by (intros; reflexivity).
  assert (H2 : Forall (fun c => 0 < c < 128) (codes "Hi!"))
    by (repeat constructor; vm_compute; reflexivity).
  assert (H3 : (peek "Hi!" =? 123) && (peek (skip 1 "Hi!") =? 125) = false)
    by reflexivity.
  assert (H4 : (String.length "Hi!" <= 3)%nat) by (simpl; lia).
  split; [exact H1|]. split; [exact H2|]. split; [exact H3|]. split; [exact H4|].
  destruct (@ascii_run_places_one_glyph_per_character _ _ Examples.ascii_text
              Examples.half_em_font (float_of_Z 10) f0_0 f0_0 0 0
              "Hi!"%string [] 3%nat H1 H2 H3 H4) as (text & Ht & Hu & _).
  exists text. split; [exact Ht | exact Hu].
Defined.

Lemma stuck_indices_never_return_witness :
  stuck_char (peek "x") = true
  /\ @xps_parse_glyphs_imp _ _ Examples.ascii_text Examples.half_em_font
       (float_of_Z 10) f0_0 f0_0 0 0 (Some "x"%string) None [] 1000 = None.
Proof.
  assert (H1 : stuck_char (peek "x") = true) by reflexivity.
  split; [exact H1|].
  exact (@stuck_indices_never_return _ _ Examples.ascii_text
           Examples.half_em_font (float_of_Z 10) f0_0 f0_0 0 0
           "x"%string [] H1 1000%nat).
Defined.

End LayoutMore.

(** ** The font cache and more on the encoding selector *)

Module LoaderMore.
Import Deobfuscate Spec LoaderProps Encoding EncodingProps FontLoader.

Lemma loader_keeps_name (part : xps_part) (w : warnings) :
  name (deobfuscate_if_necessary part w).1.1 = name part.
Proof.
  unfold deobfuscate_if_necessary.
  assert (H1 : forall p w0,
    name (match strstr (name p) ".odttf" with
          | Some _ => xps_deobfuscate_font_resource p w0
          | None => (p, w0, [])
          end).1.1 = name p).
  { intros p w0. destruct (strstr (name p) ".odttf");
      [apply deobfuscate_keeps_name | reflexivity]. }
  specialize (H1 part w).
  destruct (match strstr (name part) ".odttf" with
            | Some _ => _ | None => _ end) as [[p1 w1] st1].
  cbn [fst] in H1.
  assert (H2 : name (match strstr (name p1) ".ODTTF" with
                     | Some _ => xps_deobfuscate_font_resource p1 w1
                     | None => (p1, w1, [])
                     end).1.1 = name p1).
  { destruct (strstr (name p1) ".ODTTF");
      [apply deobfuscate_keeps_name | reflexivity]. }
  destruct (match strstr (name p1) ".ODTTF" with
            | Some _ => _ | None => _ end) as [[p2 w2] st2].
  cbn [fst] in *. congruence.
Qed.

Section Cache.
Context {font table : Type}
  `{FontEncodings font} `{PartServices font} `{FontTable table font}.



End Cache.

Lemma absent_pair (subs : list (Z * Z)) (e : Z * Z) :
  Forall (fun s => fst s <> 3 /\ fst s <> 1) subs ->
  fst e = 3 \/ fst e = 1 ->
  existsb (pair_eqb e) subs = false.
Proof.
  intros Hall He. induction Hall as [|s subs [H3 H1] _ IH]; [reflexivity|].
  cbn [existsb]. rewrite IH, orb_false_r. unfold pair_eqb.
  apply andb_false_iff. left. apply Z.eqb_neq. lia.
Qed.

(** X17. The priority list has no entry for platform 0 (its line is
    commented out in the source): a font none of whose subtables is of
    platform 3 or platform 1, for instance one with platform-0 Unicode
    subtables only, gets no encoding selected, only the warning. *)
Theorem platform_zero_is_not_selected
  {font : Type} `{FontEncodings font} (f : font) (w : warnings) :
  Forall (fun s => fst s <> 3 /\ fst s <> 1) (subtables f) ->
  xps_select_best_font_encoding f w =
  (f, w ++ ["could not find a suitable cmap"%string]).
Proof.
  intros Hall.
  pose proof (walk_finds_first f priority) as Hw.
  assert (Hnone : List.find (fun e => existsb (pair_eqb e) (subtables f))
                    priority = None).
  { unfold priority. cbn [List.find].
    rewrite !(absent_pair (subtables f)) by (assumption || (cbn; lia)).
    reflexivity. }
  rewrite Hnone in Hw. unfold xps_select_best_font_encoding.
  change xps_cmap_list with (priority ++ [(-1, -1)]).
  rewrite Hw by (unfold priority; repeat constructor; simpl; lia).
  reflexivity.
Qed.

Lemma platform_zero_is_not_selected_witness :
  let f := Examples.Build_table_font [(0, 3); (0, 4)] None in
  Forall (fun s => fst s <> 3 /\ fst s <> 1) (subtables f)
  /\ xps_select_best_font_encoding f [] =
     (f, ["could not find a suitable cmap"%string]).
Proof.
  intros f.
  assert (H1 : Forall (fun s => fst s <> 3 /\ fst s <> 1) (subtables f)).
  { change (subtables f) with [(0, 3); (0, 4)].
    constructor; [cbn; lia|]. constructor; [cbn; lia|]. constructor. }
  split; [exact H1|].
  exact (platform_zero_is_not_selected f [] H1).
Defined.



End LoaderMore.
